(** * Annotation and compositing engine of the screenshot annotator

    A shallow embedding of [src/app.js].  The file holds two revisions of
    the same application: the refactored one (module [Refactored], lines
    1-1029, snapshot-based blur undo, sanitised text) and the original
    one (module [Original], lines 1030-1948, blur burnt into the base
    image).  Both share the pixel-buffer operations, the shape helpers
    and the pixelation loop nest, which are embedded once.

    Conventions:
    - pointer coordinates are JavaScript numbers; they are modelled as
      exact rationals [Q] ([Math.floor] is [Qfloor], [Math.min] is
      [Qmin], [Math.abs] is [Qabs]);
    - the stroke width, parsed from the stroke-width control, is taken
      to be a positive integer ([positive]);
    - an [ImageData] is a width, a height and the flat RGBA byte array
      [data], indexed [(y * width + x) * 4 + channel] as in the source;
      the canvas bitmap is an [ImageData] too, and [getImageData] and
      [putImageData] copy its bytes as they are;
    - vector rasterisation ([stroke], [strokeRect], [fillRect], [arc],
      [fillText]) belongs to the browser and is a parameter
      ([CanvasAPI]);
    - the state object [state] and the DOM fields the engine writes are
      the record [State]; every handler is a function on it. *)

From Stdlib Require Import ZArith QArith Qround Qabs Qminmax String Ascii List Lia.
From Stdlib Require Import DecimalString Lqa.
From stdpp Require Import base list.

#[local] Open Scope nat_scope.

(** ** Pixel buffers *)

Record ImageData := mkImageData {
  img_width : nat;
  img_height : nat;
  img_data : list Z
}.

(** Reading a typed array: an index past the end yields [undefined],
    which a [Uint8ClampedArray] stores back as [0]. *)
Definition rd (data : list Z) (i : nat) : Z := default 0%Z (data !! i).

(** Byte [k] of the pixel at column [x], row [y]. *)
Definition channel (c : ImageData) (x y k : nat) : Z :=
  rd (img_data c) ((y * img_width c + x) * 4 + k).

Definition wf_image (c : ImageData) : Prop :=
  length (img_data c) = img_width c * img_height c * 4.

(** [ctx.getImageData(sx, sy, sw, sh)]: a fresh [sw] by [sh] buffer; a
    pixel outside the bitmap reads as transparent black. *)
Definition getImageData (c : ImageData) (sx sy sw sh : nat) : ImageData :=
  {| img_width := sw;
     img_height := sh;
     img_data :=
       map (fun i =>
              let col := (i / 4) mod sw in
              let row := (i / 4) / sw in
              if (sx + col <? img_width c) && (sy + row <? img_height c)
              then channel c (sx + col) (sy + row) (i mod 4)
              else 0%Z)
           (seq 0 (sw * sh * 4)) |}.

(** [ctx.putImageData(img, dx, dy)]: overwrites the bitmap pixels that
    the buffer covers; the part of the buffer outside the bitmap is
    dropped. *)
Definition putImageData (img : ImageData) (dx dy : nat) (c : ImageData) : ImageData :=
  {| img_width := img_width c;
     img_height := img_height c;
     img_data :=
       imap (fun j old =>
               let x := (j / 4) mod img_width c in
               let y := (j / 4) / img_width c in
               if (dx <=? x) && (x <? dx + img_width img)
                  && (dy <=? y) && (y <? dy + img_height img)
               then channel img (x - dx) (y - dy) (j mod 4)
               else old)
            (img_data c) |}.

(** [ctx.clearRect(0, 0, canvas.width, canvas.height)]. *)
Definition clearRect (c : ImageData) : ImageData :=
  {| img_width := img_width c;
     img_height := img_height c;
     img_data := replicate (img_width c * img_height c * 4) 0%Z |}.

(** [ctx.drawImage(image, 0, 0)].  Every call in the source follows a
    [clearRect] of the whole bitmap or a resize, so the destination is
    transparent black and source-over compositing leaves the source
    pixel. *)
Definition drawImage (image : ImageData) (c : ImageData) : ImageData :=
  putImageData image 0 0 c.

(** Setting [canvas.width] and [canvas.height] allocates a transparent
    bitmap. *)
Definition blankCanvas (w h : nat) : ImageData :=
  {| img_width := w; img_height := h; img_data := replicate (w * h * 4) 0%Z |}.

(** ** The pixelation loop nest *)

(** [for (let i = start; i < stop; i += step) body(i)].  The loop leaves
    by its condition whenever [stop <= start + fuel] and [0 < step]
    ([forLoop_fuel]). *)
Fixpoint forLoop {S : Type} (fuel i stop step : nat) (body : nat -> S -> S) (s : S) : S :=
  match fuel with
  | O => s
  | Datatypes.S fuel' =>
      if i <? stop then forLoop fuel' (i + step) stop step body (body i s) else s
  end.

(** The four nested loops shared by [applyBlurEffect] (lines 729-747)
    and [applyBlurPermanently] (lines 1690-1708), on [imageData.data]. *)
Definition pixelate (pixelSize safeWidth safeHeight : nat) (data : list Z) : list Z :=
  forLoop safeHeight 0 safeHeight pixelSize (fun py data =>
    forLoop safeWidth 0 safeWidth pixelSize (fun px data =>
      let pixelIndex := (py * safeWidth + px) * 4 in
      let r := rd data pixelIndex in
      let g := rd data (pixelIndex + 1) in
      let b := rd data (pixelIndex + 2) in
      let a := rd data (pixelIndex + 3) in
      forLoop safeHeight py (Nat.min (py + pixelSize) safeHeight) 1 (fun blockY data =>
        forLoop safeWidth px (Nat.min (px + pixelSize) safeWidth) 1 (fun blockX data =>
          let blockIndex := (blockY * safeWidth + blockX) * 4 in
          <[blockIndex + 3 := a]>
            (<[blockIndex + 2 := b]>
               (<[blockIndex + 1 := g]>
                  (<[blockIndex := r]> data))))
          data)
        data)
      data)
    data.

(** ** Data model *)

Inductive Tool := arrow | rect | circle | highlight | blur | text.

(** The objects pushed on [state.annotations].  [Drag] is the object
    literal of [stopDrawing] ([originalImageData] is present only on the
    blur objects of the refactored revision); [Label] is the one of
    [submitTextModal]. *)
Inductive Annotation :=
| Drag (tool : Tool) (startX startY endX endY : Q) (color : string)
       (strokeWidth : positive) (originalImageData : option ImageData)
| Label (x y : Q) (txt : string) (color : string) (fontSize : positive).

(** The drawing state of the 2D context that the source assigns. *)
Record CanvasContext := mkContext {
  strokeStyle : string;
  fillStyle : string;
  lineWidth : Z;
  lineCap : string;
  lineJoin : string;
  font : string;
  lineDash : list Z
}.

(** State of a context after its canvas is resized. *)
Definition defaultContext : CanvasContext :=
  {| strokeStyle := "#000000"; fillStyle := "#000000"; lineWidth := 1;
     lineCap := "butt"; lineJoin := "miter"; font := "10px sans-serif";
     lineDash := [] |}.

Inductive NotificationType := info | success | error.

Record State := mkState {
  currentTool : Tool;
  currentColor : string;
  strokeWidth : positive;
  isDrawing : bool;
  startX : Q;
  startY : Q;
  annotations : list Annotation;
  baseImage : option ImageData;
  canvas : ImageData;
  ctx : CanvasContext;
  isSelectingArea : bool;
  tempTextX : Q;
  tempTextY : Q;
  tempBlurBackup : option ImageData;
  capturedScreenImageObj : option ImageData;
  areaImageScale : Q;
  areaImageOffset : Q * Q;
  (** [elements.undoBtn.disabled] *)
  undoBtn_disabled : bool;
  (** text and type of the notification on display *)
  notification : option (string * NotificationType);
  (** original revision only: the image created by
      [applyBlurPermanently] whose [onload] has not run yet *)
  pendingBaseImage : option ImageData
}.

Definition set_currentTool (v : Tool) (s : State) : State :=
  mkState v (currentColor s) (strokeWidth s) (isDrawing s) (startX s) (startY s)
    (annotations s) (baseImage s) (canvas s) (ctx s) (isSelectingArea s)
    (tempTextX s) (tempTextY s) (tempBlurBackup s) (capturedScreenImageObj s)
    (areaImageScale s) (areaImageOffset s) (undoBtn_disabled s) (notification s)
    (pendingBaseImage s).

Definition set_currentColor (v : string) (s : State) : State :=
  mkState (currentTool s) v (strokeWidth s) (isDrawing s) (startX s) (startY s)
    (annotations s) (baseImage s) (canvas s) (ctx s) (isSelectingArea s)
    (tempTextX s) (tempTextY s) (tempBlurBackup s) (capturedScreenImageObj s)
    (areaImageScale s) (areaImageOffset s) (undoBtn_disabled s) (notification s)
    (pendingBaseImage s).

Definition set_strokeWidth (v : positive) (s : State) : State :=
  mkState (currentTool s) (currentColor s) v (isDrawing s) (startX s) (startY s)
    (annotations s) (baseImage s) (canvas s) (ctx s) (isSelectingArea s)
    (tempTextX s) (tempTextY s) (tempBlurBackup s) (capturedScreenImageObj s)
    (areaImageScale s) (areaImageOffset s) (undoBtn_disabled s) (notification s)
    (pendingBaseImage s).

Definition set_isDrawing (v : bool) (s : State) : State :=
  mkState (currentTool s) (currentColor s) (strokeWidth s) v (startX s) (startY s)
    (annotations s) (baseImage s) (canvas s) (ctx s) (isSelectingArea s)
    (tempTextX s) (tempTextY s) (tempBlurBackup s) (capturedScreenImageObj s)
    (areaImageScale s) (areaImageOffset s) (undoBtn_disabled s) (notification s)
    (pendingBaseImage s).

Definition set_start (x y : Q) (s : State) : State :=
  mkState (currentTool s) (currentColor s) (strokeWidth s) (isDrawing s) x y
    (annotations s) (baseImage s) (canvas s) (ctx s) (isSelectingArea s)
    (tempTextX s) (tempTextY s) (tempBlurBackup s) (capturedScreenImageObj s)
    (areaImageScale s) (areaImageOffset s) (undoBtn_disabled s) (notification s)
    (pendingBaseImage s).

Definition set_annotations (v : list Annotation) (s : State) : State :=
  mkState (currentTool s) (currentColor s) (strokeWidth s) (isDrawing s) (startX s) (startY s)
    v (baseImage s) (canvas s) (ctx s) (isSelectingArea s)
    (tempTextX s) (tempTextY s) (tempBlurBackup s) (capturedScreenImageObj s)
    (areaImageScale s) (areaImageOffset s) (undoBtn_disabled s) (notification s)
    (pendingBaseImage s).

Definition set_baseImage (v : option ImageData) (s : State) : State :=
  mkState (currentTool s) (currentColor s) (strokeWidth s) (isDrawing s) (startX s) (startY s)
    (annotations s) v (canvas s) (ctx s) (isSelectingArea s)
    (tempTextX s) (tempTextY s) (tempBlurBackup s) (capturedScreenImageObj s)
    (areaImageScale s) (areaImageOffset s) (undoBtn_disabled s) (notification s)
    (pendingBaseImage s).

Definition set_canvas (v : ImageData) (s : State) : State :=
  mkState (currentTool s) (currentColor s) (strokeWidth s) (isDrawing s) (startX s) (startY s)
    (annotations s) (baseImage s) v (ctx s) (isSelectingArea s)
    (tempTextX s) (tempTextY s) (tempBlurBackup s) (capturedScreenImageObj s)
    (areaImageScale s) (areaImageOffset s) (undoBtn_disabled s) (notification s)
    (pendingBaseImage s).

Definition set_ctx (v : CanvasContext) (s : State) : State :=
  mkState (currentTool s) (currentColor s) (strokeWidth s) (isDrawing s) (startX s) (startY s)
    (annotations s) (baseImage s) (canvas s) v (isSelectingArea s)
    (tempTextX s) (tempTextY s) (tempBlurBackup s) (capturedScreenImageObj s)
    (areaImageScale s) (areaImageOffset s) (undoBtn_disabled s) (notification s)
    (pendingBaseImage s).

Definition set_isSelectingArea (v : bool) (s : State) : State :=
  mkState (currentTool s) (currentColor s) (strokeWidth s) (isDrawing s) (startX s) (startY s)
    (annotations s) (baseImage s) (canvas s) (ctx s) v
    (tempTextX s) (tempTextY s) (tempBlurBackup s) (capturedScreenImageObj s)
    (areaImageScale s) (areaImageOffset s) (undoBtn_disabled s) (notification s)
    (pendingBaseImage s).

Definition set_tempText (x y : Q) (s : State) : State :=
  mkState (currentTool s) (currentColor s) (strokeWidth s) (isDrawing s) (startX s) (startY s)
    (annotations s) (baseImage s) (canvas s) (ctx s) (isSelectingArea s)
    x y (tempBlurBackup s) (capturedScreenImageObj s)
    (areaImageScale s) (areaImageOffset s) (undoBtn_disabled s) (notification s)
    (pendingBaseImage s).

Definition set_tempBlurBackup (v : option ImageData) (s : State) : State :=
  mkState (currentTool s) (currentColor s) (strokeWidth s) (isDrawing s) (startX s) (startY s)
    (annotations s) (baseImage s) (canvas s) (ctx s) (isSelectingArea s)
    (tempTextX s) (tempTextY s) v (capturedScreenImageObj s)
    (areaImageScale s) (areaImageOffset s) (undoBtn_disabled s) (notification s)
    (pendingBaseImage s).

Definition set_capturedScreenImageObj (v : option ImageData) (s : State) : State :=
  mkState (currentTool s) (currentColor s) (strokeWidth s) (isDrawing s) (startX s) (startY s)
    (annotations s) (baseImage s) (canvas s) (ctx s) (isSelectingArea s)
    (tempTextX s) (tempTextY s) (tempBlurBackup s) v
    (areaImageScale s) (areaImageOffset s) (undoBtn_disabled s) (notification s)
    (pendingBaseImage s).

Definition set_undoBtn_disabled (v : bool) (s : State) : State :=
  mkState (currentTool s) (currentColor s) (strokeWidth s) (isDrawing s) (startX s) (startY s)
    (annotations s) (baseImage s) (canvas s) (ctx s) (isSelectingArea s)
    (tempTextX s) (tempTextY s) (tempBlurBackup s) (capturedScreenImageObj s)
    (areaImageScale s) (areaImageOffset s) v (notification s)
    (pendingBaseImage s).

Definition set_notification (v : option (string * NotificationType)) (s : State) : State :=
  mkState (currentTool s) (currentColor s) (strokeWidth s) (isDrawing s) (startX s) (startY s)
    (annotations s) (baseImage s) (canvas s) (ctx s) (isSelectingArea s)
    (tempTextX s) (tempTextY s) (tempBlurBackup s) (capturedScreenImageObj s)
    (areaImageScale s) (areaImageOffset s) (undoBtn_disabled s) v
    (pendingBaseImage s).

Definition set_pendingBaseImage (v : option ImageData) (s : State) : State :=
  mkState (currentTool s) (currentColor s) (strokeWidth s) (isDrawing s) (startX s) (startY s)
    (annotations s) (baseImage s) (canvas s) (ctx s) (isSelectingArea s)
    (tempTextX s) (tempTextY s) (tempBlurBackup s) (capturedScreenImageObj s)
    (areaImageScale s) (areaImageOffset s) (undoBtn_disabled s) (notification s)
    v.

(** ** Browser rasterisation *)

(** What a stroke reads from the context. *)
Record Pen := mkPen {
  pen_strokeStyle : string;
  pen_lineWidth : Z;
  pen_lineCap : string;
  pen_lineJoin : string;
  pen_lineDash : list Z
}.

Definition penOf (c : CanvasContext) : Pen :=
  mkPen (strokeStyle c) (lineWidth c) (lineCap c) (lineJoin c) (lineDash c).

(** The paths that the source strokes.  The arrow head and the circle
    radius go through [Math.atan2], [Math.cos], [Math.sin] and
    [Math.sqrt]; they are kept as the arguments they are computed from. *)
Inductive Path :=
| Segment (x1 y1 x2 y2 : Q)
    (** [moveTo(x1, y1); lineTo(x2, y2)] *)
| ArrowHead (x1 y1 x2 y2 : Q)
    (** from [(x2, y2)], two segments of length 15 at [angle - PI/6] and
        [angle + PI/6], [angle = atan2(y2 - y1, x2 - x1)] *)
| Arc (x1 y1 x2 y2 : Q)
    (** [arc(x1, y1, sqrt((x2-x1)^2 + (y2-y1)^2), 0, 2 * PI)] *).

(** The rasteriser.  A drawing call yields the new content of the
    bitmap it draws on; the size of a canvas changes only by assignment
    to [canvas.width] and [canvas.height] ([repaint]). *)
Record CanvasAPI := mkCanvasAPI {
  (** [beginPath(); ...; stroke()] *)
  api_stroke : Pen -> Path -> ImageData -> list Z;
  (** [strokeRect(x, y, w, h)] *)
  api_strokeRect : Pen -> Q -> Q -> Q -> Q -> ImageData -> list Z;
  (** [fillRect(x, y, w, h)] under a fill style *)
  api_fillRect : string -> Q -> Q -> Q -> Q -> ImageData -> list Z;
  (** [fillText(text, x, y)] under a font and a fill style *)
  api_fillText : string -> string -> string -> Q -> Q -> ImageData -> list Z;
  (** the scaled copy of [finishAreaSelection]: a canvas of the
      truncated crop size, [drawImage] of the source rectangle,
      [toDataURL]; [None] when the result does not decode to an image *)
  api_crop : ImageData -> Q -> Q -> Q -> Q -> option ImageData
}.

Definition repaint (c : ImageData) (draw : ImageData -> list Z) : ImageData :=
  {| img_width := img_width c; img_height := img_height c; img_data := draw c |}.

(** ** Helpers of both revisions *)

(** [a < b] on JavaScript numbers. *)
Definition Qltb (a b : Q) : bool := negb (Qle_bool b a).

(** Assignments to the context.  A [lineWidth] that is not positive is
    ignored by the canvas. *)
Definition set_strokeStyle (v : string) (c : CanvasContext) : CanvasContext :=
  mkContext v (fillStyle c) (lineWidth c) (lineCap c) (lineJoin c) (font c) (lineDash c).
Definition set_fillStyle (v : string) (c : CanvasContext) : CanvasContext :=
  mkContext (strokeStyle c) v (lineWidth c) (lineCap c) (lineJoin c) (font c) (lineDash c).
Definition set_lineWidth (v : Z) (c : CanvasContext) : CanvasContext :=
  if (0 <? v)%Z
  then mkContext (strokeStyle c) (fillStyle c) v (lineCap c) (lineJoin c) (font c) (lineDash c)
  else c.
Definition set_lineCap (v : string) (c : CanvasContext) : CanvasContext :=
  mkContext (strokeStyle c) (fillStyle c) (lineWidth c) v (lineJoin c) (font c) (lineDash c).
Definition set_lineJoin (v : string) (c : CanvasContext) : CanvasContext :=
  mkContext (strokeStyle c) (fillStyle c) (lineWidth c) (lineCap c) v (font c) (lineDash c).
Definition set_font (v : string) (c : CanvasContext) : CanvasContext :=
  mkContext (strokeStyle c) (fillStyle c) (lineWidth c) (lineCap c) (lineJoin c) v (lineDash c).
Definition setLineDash (v : list Z) (c : CanvasContext) : CanvasContext :=
  mkContext (strokeStyle c) (fillStyle c) (lineWidth c) (lineCap c) (lineJoin c) (font c) v.

(** Template literal [`${n}px Inter, sans-serif`]. *)
Definition fontOf (fontSize : positive) : string :=
  (NilEmpty.string_of_uint (Pos.to_uint fontSize) ++ "px Inter, sans-serif")%string.

(** [String.prototype.trim] on the ASCII white space and line
    terminators (tab, LF, VT, FF, CR, space). *)
Definition isSpace (ch : ascii) : bool :=
  let n := nat_of_ascii ch in
  (n =? 32) || ((9 <=? n) && (n <=? 13)).

Fixpoint trimStart (s : string) : string :=
  match s with
  | String ch rest => if isSpace ch then trimStart rest else s
  | EmptyString => EmptyString
  end.

Fixpoint trimEnd (s : string) : string :=
  match s with
  | String ch rest =>
      match trimEnd rest with
      | EmptyString => if isSpace ch then EmptyString else String ch EmptyString
      | rest' => String ch rest'
      end
  | EmptyString => EmptyString
  end.

Definition trim (s : string) : string := trimEnd (trimStart s).

(** [sanitizeInput] (lines 67-71): the text is assigned to
    [div.textContent] and read back from [div.innerHTML]; the HTML
    serialisation of a text node escapes the ampersand, the no-break
    space (bytes 194 160 in UTF-8) and the two angle brackets. *)
Fixpoint sanitizeInput (input : string) : string :=
  match input with
  | EmptyString => EmptyString
  | String ch rest =>
      let n := nat_of_ascii ch in
      if n =? 38 then ("&amp;" ++ sanitizeInput rest)%string
      else if n =? 60 then ("&lt;" ++ sanitizeInput rest)%string
      else if n =? 62 then ("&gt;" ++ sanitizeInput rest)%string
      else
        match rest with
        | String ch2 rest2 =>
            if (n =? 194) && (nat_of_ascii ch2 =? 160)
            then ("&nbsp;" ++ sanitizeInput rest2)%string
            else String ch (sanitizeInput rest)
        | EmptyString => String ch (sanitizeInput rest)
        end
  end.

(** JavaScript truthiness of a string. *)
Definition nonEmpty (s : string) : bool :=
  match s with EmptyString => false | _ => true end.

Definition showNotification (message : string) (type : NotificationType)
    (s : State) : State :=
  set_notification (Some (message, type)) s.

(** [updateUndoButton] (lines 838-840 and 1801-1803). *)
Definition updateUndoButton (s : State) : State :=
  set_undoBtn_disabled (length (annotations s) =? 0) s.

(** The query of the interface: the undo button is enabled. *)
Definition canUndo (s : State) : bool := negb (undoBtn_disabled s).

(** Body of [img.onload] in [loadImageToEditor] (lines 483-494 and
    1452-1466).  Resizing the canvas clears its bitmap and resets its
    context. *)
Definition loadImageToEditor (img : ImageData) (s : State) : State :=
  let s := set_canvas (blankCanvas (img_width img) (img_height img)) s in
  let s := set_ctx defaultContext s in
  let s := set_canvas (drawImage img (canvas s)) s in
  let s := set_baseImage (Some img) s in
  let s := set_annotations [] s in
  updateUndoButton s.

Definition selectTool (tool : Tool) (s : State) : State := set_currentTool tool s.

(** [showTextModal] (lines 935-941 and 1902-1909), the state part. *)
Definition showTextModal (x y : Q) (s : State) : State := set_tempText x y s.

(** [cancelAreaSelection] (lines 340-347 and 1309-1316). *)
Definition cancelAreaSelection (s : State) : State :=
  let s := set_isSelectingArea false s in
  let s := set_isDrawing false s in
  set_capturedScreenImageObj None s.

(** [startAreaDrag] (lines 352-358 and 1321-1329). *)
Definition startAreaDrag (x y : Q) (s : State) : State :=
  if negb (isSelectingArea s) then s
  else set_start x y (set_isDrawing true s).

(** [backToCapture] (lines 892-899 and 1857-1865). *)
Definition backToCapture (s : State) : State :=
  set_baseImage None (set_annotations [] s).

(** ** Shape renderer of both revisions *)

Section Drawing.

Variable api : CanvasAPI.

(** [drawArrow], [drawRect], [drawCircle], [drawHighlight] (lines
    646-695 and 1592-1641). *)
Definition drawArrow (x1 y1 x2 y2 : Q) (s : State) : State :=
  let s := set_canvas
             (repaint (canvas s)
                (api_stroke api (penOf (ctx s)) (Segment x1 y1 x2 y2))) s in
  set_canvas
    (repaint (canvas s) (api_stroke api (penOf (ctx s)) (ArrowHead x1 y1 x2 y2))) s.

Definition drawRect (x1 y1 x2 y2 : Q) (s : State) : State :=
  let width := (x2 - x1)%Q in
  let height := (y2 - y1)%Q in
  set_canvas
    (repaint (canvas s) (api_strokeRect api (penOf (ctx s)) x1 y1 width height)) s.

Definition drawCircle (x1 y1 x2 y2 : Q) (s : State) : State :=
  set_canvas (repaint (canvas s) (api_stroke api (penOf (ctx s)) (Arc x1 y1 x2 y2))) s.

Definition drawHighlight (x1 y1 x2 y2 : Q) (s : State) : State :=
  let width := (x2 - x1)%Q in
  let height := (y2 - y1)%Q in
  set_canvas
    (repaint (canvas s) (api_fillRect api (fillStyle (ctx s)) x1 y1 width height)) s.

(** [drawBlurPreview] (lines 700-710 and 1646-1658). *)
Definition drawBlurPreview (x1 y1 x2 y2 : Q) (s : State) : State :=
  let width := (x2 - x1)%Q in
  let height := (y2 - y1)%Q in
  let s := set_ctx (set_fillStyle "rgba(150, 150, 150, 0.5)" (ctx s)) s in
  let s := set_canvas
             (repaint (canvas s)
                (api_fillRect api (fillStyle (ctx s)) x1 y1 width height)) s in
  let s := set_ctx (set_strokeStyle "#999999" (ctx s)) s in
  let s := set_ctx (set_lineWidth 2 (ctx s)) s in
  let s := set_ctx (setLineDash [5; 5]%Z (ctx s)) s in
  let s := set_canvas
             (repaint (canvas s)
                (api_strokeRect api (penOf (ctx s)) x1 y1 width height)) s in
  set_ctx (setLineDash [] (ctx s)) s.

(** The style assignments that precede every vector draw (lines 542-548,
    775-781, 1510-1516 and 1745-1751). *)
Definition setStyle (tool : Tool) (color : string) (width : option positive)
    (s : State) : State :=
  let s := set_ctx (set_strokeStyle color (ctx s)) s in
  let s := set_ctx (set_fillStyle
                      (match tool with
                       | highlight => (color ++ "40")%string
                       | _ => color
                       end) (ctx s)) s in
  let s := match width with
           | Some w => set_ctx (set_lineWidth (Z.pos w) (ctx s)) s
           | None => s  (* [lineWidth = undefined] is ignored *)
           end in
  let s := set_ctx (set_lineCap "round" (ctx s)) s in
  set_ctx (set_lineJoin "round" (ctx s)) s.

End Drawing.

(** ** Clamping of a rectangle to the canvas *)

(** [safeX], [safeY], [safeWidth], [safeHeight] of [applyBlurEffect]
    (lines 719-722) and [applyBlurPermanently] (lines 1675-1678). *)
Definition safeRect (c : ImageData) (x y width height : Q) : Z * Z * Z * Z :=
  let canvas_width := Z.of_nat (img_width c) in
  let canvas_height := Z.of_nat (img_height c) in
  let safeX := Z.max 0 (Qfloor (Qmin x (inject_Z (canvas_width - 1)))) in
  let safeY := Z.max 0 (Qfloor (Qmin y (inject_Z (canvas_height - 1)))) in
  let safeWidth := Qfloor (Qmin width (inject_Z (canvas_width - safeX))) in
  let safeHeight := Qfloor (Qmin height (inject_Z (canvas_height - safeY))) in
  (safeX, safeY, safeWidth, safeHeight).

(** ** The refactored revision (lines 1-1029) *)

Module Refactored.
Section WithCanvas.

Variable api : CanvasAPI.

(** [finishAreaSelection] (lines 401-447).  The [catch] branch is taken
    when no captured image is available ([drawImage] of [null]).  The
    [onload] of [loadImageToEditor] runs after the rest of the handler;
    the two write different fields, so it is applied in place. *)
Definition finishAreaSelection (endX endY : Q) (s : State) : State :=
  if negb (isDrawing s) || negb (isSelectingArea s) then s
  else
    let selectionX := Qmin (startX s) endX in
    let selectionY := Qmin (startY s) endY in
    let selectionWidth := Qabs (endX - startX s) in
    let selectionHeight := Qabs (endY - startY s) in
    if Qltb selectionWidth 10 || Qltb selectionHeight 10
    then cancelAreaSelection (showNotification "⚠️ Selected area too small" error s)
    else
      let s :=
        match capturedScreenImageObj s with
        | Some obj =>
            let cropX := ((selectionX - fst (areaImageOffset s)) / areaImageScale s)%Q in
            let cropY := ((selectionY - snd (areaImageOffset s)) / areaImageScale s)%Q in
            let cropWidth := (selectionWidth / areaImageScale s)%Q in
            let cropHeight := (selectionHeight / areaImageScale s)%Q in
            let s :=
              match api_crop api obj cropX cropY cropWidth cropHeight with
              | Some img => loadImageToEditor img s
              | None => s
              end in
            cancelAreaSelection (showNotification "✅ Area captured successfully" success s)
        | None =>
            cancelAreaSelection (showNotification "❌ Failed to crop selected area" error s)
        end in
      set_isDrawing false s.

(** [startDrawing] (lines 513-528). *)
Definition startDrawing (x y : Q) (s : State) : State :=
  let s := set_isDrawing true s in
  let s := set_start x y s in
  match currentTool s with
  | text => set_isDrawing false (showTextModal (startX s) (startY s) s)
  | blur =>
      let width := img_width (canvas s) in
      let height := img_height (canvas s) in
      set_tempBlurBackup (Some (getImageData (canvas s) 0 0 width height)) s
  | _ => s
  end.

(** [applyBlurEffect] (lines 715-753).  [getImageData] is called with a
    size of at least one pixel on a canvas filled from a data URL, so it
    does not throw and the [catch] branch is not taken. *)
Definition applyBlurEffect (x y width height : Q) (s : State) : State :=
  if Qltb width 1 || Qltb height 1 then s
  else
    let '(safeX, safeY, safeWidth, safeHeight) :=
      safeRect (canvas s) x y width height in
    if (safeWidth <? 1)%Z || (safeHeight <? 1)%Z then s
    else
      let imageData :=
        getImageData (canvas s) (Z.to_nat safeX) (Z.to_nat safeY)
          (Z.to_nat safeWidth) (Z.to_nat safeHeight) in
      let pixelSize := Z.max 8 (Z.pos (strokeWidth s) * 2) in
      let imageData :=
        mkImageData (img_width imageData) (img_height imageData)
          (pixelate (Z.to_nat pixelSize) (Z.to_nat safeWidth) (Z.to_nat safeHeight)
             (img_data imageData)) in
      set_canvas (putImageData imageData (Z.to_nat safeX) (Z.to_nat safeY) (canvas s)) s.

(** Body of the [forEach] callback of [redrawCanvas] (lines 765-802).
    A [Drag] object whose tool is ['text'] has no [text], [x], [y] or
    [fontSize]: the font assignment is rejected and [fillText] at
    [undefined] coordinates draws nothing. *)
Definition redrawAnnotation (s : State) (annotation : Annotation) : State :=
  match annotation with
  | Drag blur startX startY endX endY _ _ _ =>
      let minX := Qmin startX endX in
      let minY := Qmin startY endY in
      let width := Qabs (endX - startX) in
      let height := Qabs (endY - startY) in
      applyBlurEffect minX minY width height s
  | Drag tool startX startY endX endY color strokeWidth _ =>
      let s := setStyle tool color (Some strokeWidth) s in
      match tool with
      | arrow => drawArrow api startX startY endX endY s
      | rect => drawRect api startX startY endX endY s
      | circle => drawCircle api startX startY endX endY s
      | highlight => drawHighlight api startX startY endX endY s
      | _ => s
      end
  | Label x y txt color fontSize =>
      let s := setStyle text color None s in
      let s := set_ctx (set_font (fontOf fontSize) (ctx s)) s in
      set_canvas
        (repaint (canvas s)
           (api_fillText api (font (ctx s)) (fillStyle (ctx s)) txt x y)) s
  end.

(** [redrawCanvas] (lines 758-803). *)
Definition redrawCanvas (s : State) : State :=
  let s := set_canvas (clearRect (canvas s)) s in
  let s := match baseImage s with
           | Some image => set_canvas (drawImage image (canvas s)) s
           | None => s
           end in
  fold_left redrawAnnotation (annotations s) s.

(** [draw] (lines 533-567). *)
Definition draw (currentX currentY : Q) (s : State) : State :=
  if negb (isDrawing s) then s
  else
    let s := redrawCanvas s in
    let s := setStyle (currentTool s) (currentColor s) (Some (strokeWidth s)) s in
    match currentTool s with
    | arrow => drawArrow api (startX s) (startY s) currentX currentY s
    | rect => drawRect api (startX s) (startY s) currentX currentY s
    | circle => drawCircle api (startX s) (startY s) currentX currentY s
    | highlight => drawHighlight api (startX s) (startY s) currentX currentY s
    | blur => drawBlurPreview api (startX s) (startY s) currentX currentY s
    | text => s
    end.

(** [stopDrawing] (lines 572-618). *)
Definition stopDrawing (endX endY : Q) (s : State) : State :=
  if negb (isDrawing s) then s
  else
    let s :=
      match currentTool s with
      | blur =>
          let minX := Qmin (startX s) endX in
          let minY := Qmin (startY s) endY in
          let width := Qabs (endX - startX s) in
          let height := Qabs (endY - startY s) in
          if Qltb 1 width && Qltb 1 height
          then
            let s := set_annotations
                       (annotations s ++
                        [Drag blur (startX s) (startY s) endX endY (currentColor s)
                           (strokeWidth s) (tempBlurBackup s)]) s in
            applyBlurEffect minX minY width height s
          else s
      | tool =>
          set_annotations
            (annotations s ++
             [Drag tool (startX s) (startY s) endX endY (currentColor s)
                (strokeWidth s) None]) s
      end in
    let s := set_isDrawing false s in
    let s := set_tempBlurBackup None s in
    updateUndoButton s.

(** [undo] (lines 808-822). *)
Definition undo (s : State) : State :=
  if length (annotations s) =? 0 then s
  else
    let s :=
      match last (annotations s) with
      | Some (Drag blur _ _ _ _ _ _ (Some originalImageData)) =>
          set_canvas (putImageData originalImageData 0 0 (canvas s)) s
      | _ => s
      end in
    let s := set_annotations (removelast (annotations s)) s in
    let s := redrawCanvas s in
    let s := updateUndoButton s in
    showNotification "↩️ Annotation undone" info s.

(** [clearAnnotations] (lines 827-833). *)
Definition clearAnnotations (s : State) : State :=
  let s := set_annotations [] s in
  let s := redrawCanvas s in
  let s := updateUndoButton s in
  showNotification "🗑️ All annotations cleared" info s.

(** [submitTextModal] (lines 954-973); [value] is
    [elements.textModalInput.value]. *)
Definition submitTextModal (value : string) (s : State) : State :=
  let txt := sanitizeInput (trim value) in
  if negb (nonEmpty txt) then s
  else
    let s := set_annotations
               (annotations s ++
                [Label (tempTextX s) (tempTextY s) txt (currentColor s)
                   (strokeWidth s * 5)%positive]) s in
    let s := redrawCanvas s in
    updateUndoButton s.

End WithCanvas.
End Refactored.

(** ** The original revision (lines 1030-1948) *)

Module Original.
Section WithCanvas.

Variable api : CanvasAPI.

(** [finishAreaSelection] (lines 1374-1422); see the refactored one for
    the [catch] branch and the [onload]. *)
Definition finishAreaSelection (endX endY : Q) (s : State) : State :=
  if negb (isDrawing s) || negb (isSelectingArea s) then s
  else
    let selectionX := Qmin (startX s) endX in
    let selectionY := Qmin (startY s) endY in
    let selectionWidth := Qabs (endX - startX s) in
    let selectionHeight := Qabs (endY - startY s) in
    if Qltb selectionWidth 10 || Qltb selectionHeight 10
    then cancelAreaSelection (showNotification "Selected area too small" error s)
    else
      let s :=
        match capturedScreenImageObj s with
        | Some obj =>
            let cropX := ((selectionX - fst (areaImageOffset s)) / areaImageScale s)%Q in
            let cropY := ((selectionY - snd (areaImageOffset s)) / areaImageScale s)%Q in
            let cropWidth := (selectionWidth / areaImageScale s)%Q in
            let cropHeight := (selectionHeight / areaImageScale s)%Q in
            let s :=
              match api_crop api obj cropX cropY cropWidth cropHeight with
              | Some img => loadImageToEditor img s
              | None => s
              end in
            cancelAreaSelection (showNotification "Area captured successfully" success s)
        | None =>
            cancelAreaSelection (showNotification "Failed to crop selected area" error s)
        end in
      set_isDrawing false s.

(** [startDrawing] (lines 1486-1496). *)
Definition startDrawing (x y : Q) (s : State) : State :=
  let s := set_isDrawing true s in
  let s := set_start x y s in
  match currentTool s with
  | text => set_isDrawing false (showTextModal (startX s) (startY s) s)
  | _ => s
  end.

(** [applyBlurPermanently] (lines 1663-1732).  As in [applyBlurEffect]
    nothing throws, so the gray fallback of the [catch] branch is not
    taken.  The copy of the canvas becomes the base image when its
    [onload] runs ([imageOnload]). *)
Definition applyBlurPermanently (x1 y1 x2 y2 : Q) (s : State) : State :=
  let width := Qabs (x2 - x1) in
  let height := Qabs (y2 - y1) in
  let minX := Qmin x1 x2 in
  let minY := Qmin y1 y2 in
  if Qltb width 1 || Qltb height 1 then s
  else
    let '(safeX, safeY, safeWidth, safeHeight) :=
      safeRect (canvas s) minX minY width height in
    if (safeWidth <? 1)%Z || (safeHeight <? 1)%Z then s
    else
      let imageData :=
        getImageData (canvas s) (Z.to_nat safeX) (Z.to_nat safeY)
          (Z.to_nat safeWidth) (Z.to_nat safeHeight) in
      let pixelSize := Z.max 8 (Z.pos (strokeWidth s) * 2) in
      let imageData :=
        mkImageData (img_width imageData) (img_height imageData)
          (pixelate (Z.to_nat pixelSize) (Z.to_nat safeWidth) (Z.to_nat safeHeight)
             (img_data imageData)) in
      let s := set_canvas (putImageData imageData (Z.to_nat safeX) (Z.to_nat safeY)
                             (canvas s)) s in
      let tempCanvas :=
        drawImage (canvas s) (blankCanvas (img_width (canvas s)) (img_height (canvas s))) in
      set_pendingBaseImage (Some tempCanvas) s.

(** The [img.onload] callback of [applyBlurPermanently] (lines
    1720-1723). *)
Definition imageOnload (s : State) : State :=
  match pendingBaseImage s with
  | Some img => set_pendingBaseImage None (set_baseImage (Some img) s)
  | None => s
  end.

(** Body of the [forEach] callback of [redrawCanvas] (lines 1744-1774). *)
Definition redrawAnnotation (s : State) (annotation : Annotation) : State :=
  match annotation with
  | Drag tool startX startY endX endY color strokeWidth _ =>
      let s := setStyle tool color (Some strokeWidth) s in
      match tool with
      | arrow => drawArrow api startX startY endX endY s
      | rect => drawRect api startX startY endX endY s
      | circle => drawCircle api startX startY endX endY s
      | highlight => drawHighlight api startX startY endX endY s
      | blur => s  (* Already applied to baseImage *)
      | text => s
      end
  | Label x y txt color fontSize =>
      let s := setStyle text color None s in
      let s := set_ctx (set_font (fontOf fontSize) (ctx s)) s in
      set_canvas
        (repaint (canvas s)
           (api_fillText api (font (ctx s)) (fillStyle (ctx s)) txt x y)) s
  end.

(** [redrawCanvas] (lines 1737-1775). *)
Definition redrawCanvas (s : State) : State :=
  let s := set_canvas (clearRect (canvas s)) s in
  let s := match baseImage s with
           | Some image => set_canvas (drawImage image (canvas s)) s
           | None => s
           end in
  fold_left redrawAnnotation (annotations s) s.

(** [draw] (lines 1501-1535). *)
Definition draw (currentX currentY : Q) (s : State) : State :=
  if negb (isDrawing s) then s
  else
    let s := redrawCanvas s in
    let s := setStyle (currentTool s) (currentColor s) (Some (strokeWidth s)) s in
    match currentTool s with
    | arrow => drawArrow api (startX s) (startY s) currentX currentY s
    | rect => drawRect api (startX s) (startY s) currentX currentY s
    | circle => drawCircle api (startX s) (startY s) currentX currentY s
    | highlight => drawHighlight api (startX s) (startY s) currentX currentY s
    | blur => drawBlurPreview api (startX s) (startY s) currentX currentY s
    | text => s
    end.

(** [stopDrawing] (lines 1540-1564). *)
Definition stopDrawing (endX endY : Q) (s : State) : State :=
  if negb (isDrawing s) then s
  else
    let s :=
      match currentTool s with
      | blur => applyBlurPermanently (startX s) (startY s) endX endY s
      | _ => s
      end in
    let s := set_annotations
               (annotations s ++
                [Drag (currentTool s) (startX s) (startY s) endX endY (currentColor s)
                   (strokeWidth s) None]) s in
    let s := set_isDrawing false s in
    updateUndoButton s.

(** [undo] (lines 1780-1786). *)
Definition undo (s : State) : State :=
  if length (annotations s) =? 0 then s
  else
    let s := set_annotations (removelast (annotations s)) s in
    let s := redrawCanvas s in
    updateUndoButton s.

(** [clearAnnotations] (lines 1791-1796). *)
Definition clearAnnotations (s : State) : State :=
  let s := set_annotations [] s in
  let s := redrawCanvas s in
  updateUndoButton s.

(** [submitTextModal] (lines 1922-1941). *)
Definition submitTextModal (value : string) (s : State) : State :=
  let txt := trim value in
  if negb (nonEmpty txt) then s
  else
    let s := set_annotations
               (annotations s ++
                [Label (tempTextX s) (tempTextY s) txt (currentColor s)
                   (strokeWidth s * 5)%positive]) s in
    let s := redrawCanvas s in
    updateUndoButton s.

End WithCanvas.
End Original.

(** ** Events *)

(** What the outside delivers to the editor, with pointer positions in
    surface coordinates ([getCanvasMousePosition] applied). *)
Inductive Event :=
| LoadImage (img : ImageData)
| SelectTool (tool : Tool)
| SetColor (color : string)
| SetStrokeWidth (n : positive)
| MouseDown (x y : Q)
| MouseMove (x y : Q)
| MouseUp (x y : Q)
| MouseLeave (x y : Q)
| SubmitText (value : string)
| Undo
| Clear
| AreaDown (x y : Q)
| AreaUp (x y : Q)
| BackToCapture
| ImageLoaded.

(** The page before any capture: the default 300 by 150 canvas. *)
Definition initialState : State :=
  {| currentTool := arrow; currentColor := "#FF4D4F"; strokeWidth := 3;
     isDrawing := false; startX := 0; startY := 0; annotations := [];
     baseImage := None; canvas := blankCanvas 300 150; ctx := defaultContext;
     isSelectingArea := false; tempTextX := 0; tempTextY := 0;
     tempBlurBackup := None; capturedScreenImageObj := None;
     areaImageScale := 1; areaImageOffset := (0%Q, 0%Q);
     undoBtn_disabled := false; notification := None;
     pendingBaseImage := None |}.

Definition stepRefactored (api : CanvasAPI) (s : State) (e : Event) : State :=
  match e with
  | LoadImage img => loadImageToEditor img s
  | SelectTool tool => selectTool tool s
  | SetColor color => set_currentColor color s
  | SetStrokeWidth n => set_strokeWidth n s
  | MouseDown x y => Refactored.startDrawing x y s
  | MouseMove x y => Refactored.draw api x y s
  | MouseUp x y => Refactored.stopDrawing x y s
  | MouseLeave x y => Refactored.stopDrawing x y s
  | SubmitText value => Refactored.submitTextModal api value s
  | Undo => Refactored.undo api s
  | Clear => Refactored.clearAnnotations api s
  | AreaDown x y => startAreaDrag x y s
  | AreaUp x y => Refactored.finishAreaSelection api x y s
  | BackToCapture => backToCapture s
  | ImageLoaded => s
  end.

Definition stepOriginal (api : CanvasAPI) (s : State) (e : Event) : State :=
  match e with
  | LoadImage img => loadImageToEditor img s
  | SelectTool tool => selectTool tool s
  | SetColor color => set_currentColor color s
  | SetStrokeWidth n => set_strokeWidth n s
  | MouseDown x y => Original.startDrawing x y s
  | MouseMove x y => Original.draw api x y s
  | MouseUp x y => Original.stopDrawing x y s
  | MouseLeave x y => Original.stopDrawing x y s
  | SubmitText value => Original.submitTextModal api value s
  | Undo => Original.undo api s
  | Clear => Original.clearAnnotations api s
  | AreaDown x y => startAreaDrag x y s
  | AreaUp x y => Original.finishAreaSelection api x y s
  | BackToCapture => backToCapture s
  | ImageLoaded => Original.imageOnload s
  end.

(** The states an event sequence leads to from the initial page. *)
Definition runRefactored (api : CanvasAPI) (events : list Event) : State :=
  fold_left (stepRefactored api) events initialState.

Definition runOriginal (api : CanvasAPI) (events : list Event) : State :=
  fold_left (stepOriginal api) events initialState.

(** A pointer gesture on the canvas: down, moves, up. *)
Definition dragRefactored (api : CanvasAPI) (x0 y0 : Q) (moves : list (Q * Q))
    (x1 y1 : Q) (s : State) : State :=
  Refactored.stopDrawing x1 y1
    (fold_left (fun s m => Refactored.draw api (fst m) (snd m) s) moves
       (Refactored.startDrawing x0 y0 s)).


(** ** Vocabulary of the statements *)

(** The four stores of the innermost loop body. *)
Definition write4 (d : list Z) (bi : nat) (r g b a : Z) : list Z :=
  <[bi + 3 := a]> (<[bi + 2 := b]> (<[bi + 1 := g]> (<[bi := r]> d))).

(** Index of the first byte of a cell in a buffer [sw] cells wide, and
    its bytes. *)
Definition cellIndex (sw x y : nat) : nat := (y * sw + x) * 4.

Definition cellByte (sw : nat) (d : list Z) (x y k : nat) : Z :=
  rd d (cellIndex sw x y + k).

Definition pick (r g b a : Z) (k : nat) : Z :=
  match k with 0 => r | 1 => g | 2 => b | _ => a end.

(** [d'] is [d] with the cells of [R] set to one colour. *)
Definition filled (sw sh : nat) (R : nat -> nat -> Prop) (r g b a : Z)
    (d d' : list Z) : Prop :=
  length d' = length d /\
  forall x y k, x < sw -> y < sh -> k < 4 ->
    (R x y -> cellByte sw d' x y k = pick r g b a k) /\
    (~ R x y -> cellByte sw d' x y k = cellByte sw d x y k).

(** Body of the [px] loop of [pixelate] at block row [py]. *)
Definition blockBody (sw sh p py : nat) : nat -> list Z -> list Z :=
  fun px data =>
    let pixelIndex := (py * sw + px) * 4 in
    let r := rd data pixelIndex in
    let g := rd data (pixelIndex + 1) in
    let b := rd data (pixelIndex + 2) in
    let a := rd data (pixelIndex + 3) in
    forLoop sh py (Nat.min (py + p) sh) 1 (fun blockY data =>
      forLoop sw px (Nat.min (px + p) sw) 1 (fun blockX data =>
        let blockIndex := (blockY * sw + blockX) * 4 in
        <[blockIndex + 3 := a]>
          (<[blockIndex + 2 := b]>
             (<[blockIndex + 1 := g]>
                (<[blockIndex := r]> data))))
        data)
      data.

(** In block row [n], the first [m] blocks of [d'] carry the colour
    their top-left cell has in [d]; the other cells are those of [d]. *)
Definition rowDone (sw sh p n m : nat) (d d' : list Z) : Prop :=
  length d' = length d /\
  forall x y k, x < sw -> y < sh -> k < 4 ->
    (y / p = n -> x / p < m ->
     cellByte sw d' x y k = cellByte sw d (x / p * p) (n * p) k) /\
    (~ (y / p = n /\ x / p < m) -> cellByte sw d' x y k = cellByte sw d x y k).

(** Block size [Math.max(8, state.strokeWidth * 2)]. *)
Definition pixelSizeOf (s : State) : nat :=
  Z.to_nat (Z.max 8 (Z.pos (strokeWidth s) * 2)).

(** The bitmap that the blur writes for a rectangle of whole pixels. *)
Definition blurred (s : State) (x y w h : nat) : ImageData :=
  let imageData := getImageData (canvas s) x y w h in
  putImageData
    (mkImageData w h (pixelate (pixelSizeOf s) w h (img_data imageData)))
    x y (canvas s).

(** [s'] differs from [s] at most in the content of the bitmap and in
    the context, whose dash list is the same. *)
Definition repainted (s s' : State) : Prop :=
  exists d c,
    lineDash c = lineDash (ctx s) /\
    s' = set_ctx c
           (set_canvas (mkImageData (img_width (canvas s)) (img_height (canvas s)) d) s).

(** [s'] differs from [s] at most in the bitmap and the context. *)
Definition redrawn (s s' : State) : Prop :=
  exists b c, s' = set_ctx c (set_canvas b s).

(** What a recomposite reads from the state. *)
Definition sameScene (s1 s2 : State) : Prop :=
  annotations s1 = annotations s2 /\ baseImage s1 = baseImage s2 /\
  strokeWidth s1 = strokeWidth s2 /\
  img_width (canvas s1) = img_width (canvas s2) /\
  img_height (canvas s1) = img_height (canvas s2) /\
  lineDash (ctx s1) = lineDash (ctx s2).

(** The running states of a replay agree on what the next draw reads. *)
Definition sameBrush (s1 s2 : State) : Prop :=
  canvas s1 = canvas s2 /\ strokeWidth s1 = strokeWidth s2 /\
  lineDash (ctx s1) = lineDash (ctx s2).



(** The string holds an angle bracket. *)
Fixpoint hasAngle (s : string) : bool :=
  match s with
  | EmptyString => false
  | String ch rest =>
      (nat_of_ascii ch =? 60) || (nat_of_ascii ch =? 62) || hasAngle rest
  end.

(** ** Sample inputs *)

(** A rasteriser for the examples: every drawing call paints one opaque
    black pixel, at the end point of a stroke and at the anchor of a
    rectangle or a text. *)
Definition plot (x y : Q) (c : ImageData) : list Z :=
  img_data
    (putImageData (mkImageData 1 1 [0; 0; 0; 255]%Z)
       (Z.to_nat (Qfloor x)) (Z.to_nat (Qfloor y)) c).

Definition dotAPI : CanvasAPI :=
  {| api_stroke := fun _ path =>
       match path with
       | Segment _ _ x2 y2 => plot x2 y2
       | ArrowHead _ _ x2 y2 => plot x2 y2
       | Arc x1 y1 _ _ => plot x1 y1
       end;
     api_strokeRect := fun _ x y _ _ => plot x y;
     api_fillRect := fun _ x y _ _ => plot x y;
     api_fillText := fun _ _ _ x y => plot x y;
     api_crop := fun _ _ _ _ _ => None |}.

(** A 12 by 3 opaque image whose pixel [n] (row-major) has the colour
    [(n, n, n, 255)]. *)
Definition sampleImage : ImageData :=
  {| img_width := 12; img_height := 3;
     img_data := map (fun i => if i mod 4 =? 3 then 255%Z else Z.of_nat (i / 4))
                   (seq 0 (12 * 3 * 4)) |}.

(** ** Pointer and overlay geometry *)



Definition set_areaImage (scale : Q) (offset : Q * Q) (s : State) : State :=
  mkState (currentTool s) (currentColor s) (strokeWidth s) (isDrawing s) (startX s) (startY s)
    (annotations s) (baseImage s) (canvas s) (ctx s) (isSelectingArea s)
    (tempTextX s) (tempTextY s) (tempBlurBackup s) (capturedScreenImageObj s)
    scale offset (undoBtn_disabled s) (notification s)
    (pendingBaseImage s).

(** Body of [img.onload] in [showAreaSelectionOverlay] (lines 312-330
    and 1280-1299), the state part.  [overlayWidth] and [overlayHeight]
    are the size given to the area-selection canvas, [window.innerWidth]
    and [window.innerHeight]. *)
Definition overlayImageOnload (overlayWidth overlayHeight : nat) (img : ImageData)
    (s : State) : State :=
  let canvas_width := inject_Z (Z.of_nat overlayWidth) in
  let canvas_height := inject_Z (Z.of_nat overlayHeight) in
  let img_w := inject_Z (Z.of_nat (img_width img)) in
  let img_h := inject_Z (Z.of_nat (img_height img)) in
  let scale := Qmin (canvas_width / img_w) (canvas_height / img_h) in
  let scaledWidth := (img_w * scale)%Q in
  let scaledHeight := (img_h * scale)%Q in
  let offsetX := ((canvas_width - scaledWidth) / 2)%Q in
  let offsetY := ((canvas_height - scaledHeight) / 2)%Q in
  let s := set_areaImage scale (offsetX, offsetY) s in
  set_capturedScreenImageObj (Some img) s.


(** ** Vocabulary of the further statements *)

(** Every character is trimmed by [trim]. *)
Fixpoint allSpaces (s : string) : bool :=
  match s with
  | EmptyString => true
  | String ch rest => isSpace ch && allSpaces rest
  end.


Definition isBlurAnnotation (a : Annotation) : bool :=
  match a with
  | Drag blur _ _ _ _ _ _ _ => true
  | _ => false
  end.

(** The undo button is disabled exactly when the store is empty. *)
Definition undoButtonInSync (s : State) : Prop :=
  undoBtn_disabled s = (length (annotations s) =? 0).

(** The events that replace the base image in the refactored revision. *)
Definition replacesBaseImage (e : Event) : bool :=
  match e with
  | LoadImage _ | AreaUp _ _ | BackToCapture => true
  | _ => false
  end.

Definition isBackToCapture (e : Event) : bool :=
  match e with
  | BackToCapture => true
  | _ => false
  end.

(** A text annotation holds no angle bracket. *)
Definition escapedAnnotation (a : Annotation) : Prop :=
  match a with
  | Label _ _ txt _ _ => hasAngle txt = false
  | Drag _ _ _ _ _ _ _ _ => True
  end.

(** * Properties *)


(** ** Loops *)

Lemma forLoop_rule {S : Type} (I : nat -> S -> Prop) (stop step : nat)
    (body : nat -> S -> S) :
  0 < step ->
  (forall i s, i < stop -> I i s -> I (i + step) (body i s)) ->
  forall fuel i s, stop <= i + fuel -> I i s ->
    exists k, stop <= k /\ I k (forLoop fuel i stop step body s).
Proof.
  intros Hstep Hbody. induction fuel as [|fuel IH]; intros i s Hfuel HI; simpl.
  - exists i. split; [lia | exact HI].
  - destruct (Nat.ltb_spec i stop) as [Hlt | Hge].
    + apply IH; [lia | auto].
    + exists i. split; [lia | exact HI].
Qed.

Lemma forLoop_fuel {S : Type} (stop step : nat) (body : nat -> S -> S) :
  0 < step ->
  forall fuel1 fuel2 i s, stop <= i + fuel1 -> stop <= i + fuel2 ->
    forLoop fuel1 i stop step body s = forLoop fuel2 i stop step body s.
Proof.
  intros Hstep. induction fuel1 as [|fuel1 IH]; intros fuel2 i s H1 H2.
  - destruct fuel2 as [|fuel2]; simpl; [reflexivity |].
    destruct (Nat.ltb_spec i stop); [lia | reflexivity].
  - destruct fuel2 as [|fuel2]; simpl.
    + destruct (Nat.ltb_spec i stop); [lia | reflexivity].
    + destruct (Nat.ltb_spec i stop); [apply IH; lia | reflexivity].
Qed.

(** ** Flat RGBA arrays *)

Lemma rd_insert (d : list Z) (i j : nat) (v : Z) :
  i < length d -> rd (<[i := v]> d) j = if decide (i = j) then v else rd d j.
Proof.
  intros Hi. unfold rd. destruct (decide (i = j)) as [->|Hne].
  - by rewrite list_lookup_insert_eq.
  - by rewrite list_lookup_insert_ne.
Qed.

Lemma length_write4 d bi r g b a : length (write4 d bi r g b a) = length d.
Proof. unfold write4. by rewrite !length_insert. Qed.

Lemma rd_write4_other d bi r g b a j :
  (j < bi \/ bi + 3 < j) -> rd (write4 d bi r g b a) j = rd d j.
Proof.
  intros Hj. unfold write4, rd.
  rewrite !list_lookup_insert_ne by lia. reflexivity.
Qed.

Lemma rd_write4_same d bi r g b a k :
  bi + 3 < length d -> k < 4 ->
  rd (write4 d bi r g b a) (bi + k) =
  match k with 0 => r | 1 => g | 2 => b | _ => a end.
Proof.
  intros Hlen Hk. unfold write4.
  rewrite !rd_insert by (rewrite ?length_insert; lia).
  destruct k as [|[|[|[|k]]]]; try lia;
    repeat (destruct (decide _); try lia); reflexivity.
Qed.

Section Pixelate.

Variables sw sh p : nat.
Hypothesis Hp : 0 < p.

#[local] Abbreviation idx := (cellIndex sw).
#[local] Abbreviation sample := (cellByte sw).
#[local] Abbreviation filled := (filled sw sh).
#[local] Abbreviation rowBody := (blockBody sw sh p).
#[local] Abbreviation rowDone := (rowDone sw sh p).

Lemma idx_bound x y : x < sw -> y < sh -> idx x y + 3 < sw * sh * 4.
Proof. unfold cellIndex. intros. nia. Qed.

Lemma idx_apart x y x' y' :
  x < sw -> x' < sw -> (x, y) <> (x', y') ->
  idx x y + 3 < idx x' y' \/ idx x' y' + 3 < idx x y.
Proof.
  unfold cellIndex. intros Hx Hx' Hne.
  destruct (Nat.lt_trichotomy y y') as [Hy | [-> | Hy]].
  - left. nia.
  - assert (x <> x') by congruence. lia.
  - right. nia.
Qed.

Lemma fill_row d r g b a px xe y0 :
  length d = sw * sh * 4 -> y0 < sh -> px <= xe -> xe <= sw ->
  filled (fun x y => y = y0 /\ px <= x < xe) r g b a d
    (forLoop sw px xe 1 (fun blockX data =>
       let blockIndex := (y0 * sw + blockX) * 4 in
       <[blockIndex + 3 := a]> (<[blockIndex + 2 := b]>
         (<[blockIndex + 1 := g]> (<[blockIndex := r]> data)))) d).
Proof.
  intros Hlen Hy0 Hpx Hxe.
  destruct (forLoop_rule
    (fun i d' => px <= i <= xe /\
       filled (fun x y => y = y0 /\ px <= x < i) r g b a d d')
    xe 1
    (fun blockX data => write4 data (idx blockX y0) r g b a)) with (fuel := sw) (i := px) (s := d)
    as (k & Hk & (Hk1 & Hk2)); try lia.
  - intros i d' Hi [Hrange [Hl HI]]. split; [lia |]. split.
    + by rewrite length_write4.
    + intros x y c Hx Hy Hc. unfold cellByte.
      destruct (decide ((x, y) = (i, y0))) as [[= -> ->] | Hne].
      * rewrite rd_write4_same; [| rewrite Hl, Hlen; apply idx_bound; lia | lia].
        split; [reflexivity | intros Hout; exfalso; apply Hout; lia].
      * rewrite rd_write4_other
          by (destruct (idx_apart i y0 x y) as [H|H]; try lia; congruence).
        destruct (HI x y c Hx Hy Hc) as [Hin Hout].
        split; intros HR.
        -- apply Hin. destruct HR as [-> HR]. split; [reflexivity |].
           assert (x <> i) by congruence. lia.
        -- apply Hout. intros [-> HR']. apply HR. split; [reflexivity | lia].
  - split; [lia|]. split; [reflexivity|]. intros x y c Hx Hy Hc. split; [lia | reflexivity].
  - assert (k = xe) as -> by lia. exact Hk2.
Qed.

Lemma fill_block d r g b a px xe py ye :
  length d = sw * sh * 4 -> px <= xe -> xe <= sw -> py <= ye -> ye <= sh ->
  filled (fun x y => py <= y < ye /\ px <= x < xe) r g b a d
    (forLoop sh py ye 1 (fun blockY data =>
       forLoop sw px xe 1 (fun blockX data =>
         let blockIndex := (blockY * sw + blockX) * 4 in
         <[blockIndex + 3 := a]> (<[blockIndex + 2 := b]>
           (<[blockIndex + 1 := g]> (<[blockIndex := r]> data)))) data) d).
Proof.
  intros Hlen Hpx Hxe Hpy Hye.
  destruct (forLoop_rule
    (fun i d' => py <= i <= ye /\
       filled (fun x y => py <= y < i /\ px <= x < xe) r g b a d d')
    ye 1
    (fun blockY data =>
       forLoop sw px xe 1 (fun blockX data =>
         let blockIndex := (blockY * sw + blockX) * 4 in
         <[blockIndex + 3 := a]> (<[blockIndex + 2 := b]>
           (<[blockIndex + 1 := g]> (<[blockIndex := r]> data)))) data))
    with (fuel := sh) (i := py) (s := d)
    as (k & Hk & (Hk1 & Hk2)); try lia.
  - intros i d' Hi [Hrange [Hl HI]]. split; [lia |].
    destruct (fill_row d' r g b a px xe i) as [Hl' HI']; try lia.
    split; [congruence |].
    intros x y c Hx Hy Hc.
    destruct (HI x y c Hx Hy Hc) as [Hin Hout].
    destruct (HI' x y c Hx Hy Hc) as [Hin' Hout'].
    destruct (decide (y = i)) as [-> | Hne].
    + split; intros HR.
      * apply Hin'. lia.
      * rewrite Hout' by lia. apply Hout. lia.
    + rewrite Hout' by lia. split; intros HR; [apply Hin | apply Hout]; lia.
  - split; [lia|]. split; [reflexivity|].
    intros x y c Hx Hy Hc. split; [lia | reflexivity].
  - assert (k = ye) as -> by lia. exact Hk2.
Qed.

(** Block column and block row of a cell. *)
Lemma div_lt_mul x m : x / p < m <-> x < m * p.
Proof.
  split; intros H.
  - pose proof (Nat.mul_succ_div_gt x p ltac:(lia)). nia.
  - apply Nat.Div0.div_lt_upper_bound; lia.
Qed.

Lemma div_mul_le x : x / p * p <= x.
Proof. pose proof (Nat.Div0.mul_div_le x p). lia. Qed.

Lemma pick_sample d x y k :
  k < 4 ->
  pick (rd d (idx x y)) (rd d (idx x y + 1)) (rd d (idx x y + 2)) (rd d (idx x y + 3)) k
  = sample d x y k.
Proof.
  intros Hk. unfold cellByte.
  destruct k as [|[|[|[|k]]]]; simpl; try lia; try reflexivity.
  by rewrite Nat.add_0_r.
Qed.

Lemma div_eq_iff x n : x / p = n <-> n * p <= x < n * p + p.
Proof.
  split.
  - intros <-. pose proof (div_mul_le x).
    pose proof (Nat.mul_succ_div_gt x p ltac:(lia)). lia.
  - intros H. symmetry. apply (Nat.div_unique x p n (x - n * p)); lia.
Qed.

Lemma blur_row d n :
  length d = sw * sh * 4 -> n * p < sh ->
  exists m, sw <= m * p /\
    rowDone n m d (forLoop sw 0 sw p (rowBody (n * p)) d).
Proof.
  intros Hlen Hn.
  destruct (forLoop_rule
    (fun i d' => exists m, i = m * p /\ rowDone n m d d')
    sw p (rowBody (n * p))) with (fuel := sw) (i := 0) (s := d)
    as (k & Hk & (m & -> & Hm)); try lia.
  - intros i d' Hi (m & -> & [Hl HI]). exists (Datatypes.S m). split; [lia |].
    unfold blockBody.
    destruct (fill_block d'
      (rd d' ((n * p * sw + m * p) * 4)) (rd d' ((n * p * sw + m * p) * 4 + 1))
      (rd d' ((n * p * sw + m * p) * 4 + 2)) (rd d' ((n * p * sw + m * p) * 4 + 3))
      (m * p) (Nat.min (m * p + p) sw) (n * p) (Nat.min (n * p + p) sh))
      as [Hl' HI']; try lia.
    cbv zeta in Hl', HI'. cbv zeta.
    split; [rewrite <- Hl; exact Hl' |].
    intros x y c Hx Hy Hc.
    destruct (HI x y c Hx Hy Hc) as [Hin Hout].
    destruct (HI' x y c Hx Hy Hc) as [Hin' Hout'].
    pose proof (div_eq_iff y n) as Hyn.
    pose proof (div_eq_iff x m) as Hxm.
    pose proof (div_lt_mul x m) as Hxlt.
    split.
    + intros Hy' Hx'.
      destruct (decide (x / p = m)) as [Hxeq | Hxne].
      * rewrite Hin' by lia.
        fold (cellIndex sw (m * p) (n * p)). rewrite pick_sample by lia.
        rewrite Hxeq.
        destruct (HI (m * p) (n * p) c ltac:(lia) ltac:(lia) Hc) as [_ Hout0].
        apply Hout0. intros [_ Hlt]. apply div_lt_mul in Hlt. lia.
      * rewrite Hout' by lia. apply Hin; [exact Hy' | lia].
    + intros Hnot. rewrite Hout'.
      * apply Hout. intros [Hy' Hx']. apply Hnot. split; [exact Hy' | lia].
      * intros [Hyr Hxr]. apply Hnot. split; [lia |].
        assert (x / p = m) by lia. lia.
  - exists 0. split; [lia |]. split; [reflexivity |].
    intros x y c Hx Hy Hc. split; [lia | reflexivity].
  - exists m. split; [lia | exact Hm].
Qed.


(** The loop nest as a whole. *)
Lemma pixelate_spec d :
  length d = sw * sh * 4 ->
  length (pixelate p sw sh d) = length d /\
  forall x y k, x < sw -> y < sh -> k < 4 ->
    sample (pixelate p sw sh d) x y k = sample d (x / p * p) (y / p * p) k.
Proof.
  intros Hlen.
  destruct (forLoop_rule
    (fun i d' => exists n, i = n * p /\ length d' = length d /\
       forall x y k, x < sw -> y < sh -> k < 4 ->
         (y / p < n -> sample d' x y k = sample d (x / p * p) (y / p * p) k) /\
         (~ y / p < n -> sample d' x y k = sample d x y k))
    sh p (fun py data => forLoop sw 0 sw p (rowBody py) data))
    with (fuel := sh) (i := 0) (s := d)
    as (k & Hk & (n & -> & Hl & HI)); try lia.
  - intros i d' Hi (n & -> & Hl & HI). exists (Datatypes.S n). split; [lia |].
    destruct (blur_row d' n) as (m & Hm & Hl' & HI'); [lia | lia |].
    split; [congruence |].
    intros x y c Hx Hy Hc.
    destruct (HI x y c Hx Hy Hc) as [Hin Hout].
    destruct (HI' x y c Hx Hy Hc) as [Hin' Hout'].
    assert (x / p < m) as Hxm by (apply div_lt_mul; lia).
    pose proof (div_mul_le x) as Hxle.
    split.
    + intros Hy'. destruct (decide (y / p = n)) as [Hyn | Hyn].
      * rewrite Hin' by assumption. rewrite Hyn.
        destruct (HI (x / p * p) (n * p) c ltac:(lia) ltac:(lia) Hc) as [_ Hout0].
        apply Hout0. rewrite Nat.div_mul by lia. lia.
      * rewrite Hout' by tauto. apply Hin. lia.
    + intros Hy'. rewrite Hout' by (intros [? _]; lia). apply Hout. lia.
  - exists 0. split; [lia |]. split; [reflexivity |].
    intros x y c Hx Hy Hc. split; [lia | reflexivity].
  - split; [exact Hl |].
    intros x y c Hx Hy Hc. apply HI; try assumption.
    apply div_lt_mul. lia.
Qed.

End Pixelate.


Lemma lookup_map {A B : Type} (f : A -> B) (l : list A) (i : nat) :
  map f l !! i = f <$> l !! i.
Proof.
  revert i. induction l as [|a l IH]; intros [|i]; simpl; try reflexivity. apply IH.
Qed.

(** Decoding a byte index. *)
Lemma decode_index (w x y k : nat) :
  x < w -> k < 4 ->
  let i := (y * w + x) * 4 + k in
  i / 4 = y * w + x /\ i mod 4 = k /\ (i / 4) mod w = x /\ (i / 4) / w = y.
Proof.
  intros Hx Hk i.
  assert (i / 4 = y * w + x) as H4.
  { symmetry. apply (Nat.div_unique i 4 (y * w + x) k); unfold i; lia. }
  assert (i mod 4 = k) as Hm.
  { symmetry. apply (Nat.mod_unique i 4 (y * w + x) k); unfold i; lia. }
  rewrite H4. repeat split; try assumption.
  - symmetry. apply (Nat.mod_unique (y * w + x) w y x); lia.
  - symmetry. apply (Nat.div_unique (y * w + x) w y x); lia.
Qed.

Lemma encode_index (w h i : nat) :
  i < w * h * 4 ->
  exists x y k, x < w /\ y < h /\ k < 4 /\ i = (y * w + x) * 4 + k.
Proof.
  intros Hi.
  assert (0 < w) by nia.
  exists ((i / 4) mod w), ((i / 4) / w), (i mod 4).
  pose proof (Nat.div_mod_eq i 4).
  pose proof (Nat.div_mod_eq (i / 4) w).
  pose proof (Nat.mod_upper_bound i 4 ltac:(lia)).
  pose proof (Nat.mod_upper_bound (i / 4) w ltac:(lia)).
  repeat split; try lia.
  - apply Nat.Div0.div_lt_upper_bound. apply Nat.Div0.div_lt_upper_bound. lia.
Qed.

Lemma channel_bound (c : ImageData) (x y k : nat) :
  wf_image c -> x < img_width c -> y < img_height c -> k < 4 ->
  (y * img_width c + x) * 4 + k < length (img_data c).
Proof. unfold wf_image. intros -> Hx Hy Hk. nia. Qed.

Lemma image_ext (c c' : ImageData) :
  img_width c = img_width c' -> img_height c = img_height c' ->
  wf_image c -> wf_image c' ->
  (forall x y k, x < img_width c -> y < img_height c -> k < 4 ->
     channel c x y k = channel c' x y k) ->
  c = c'.
Proof.
  destruct c as [w h d], c' as [w' h' d']. unfold wf_image, channel. simpl.
  intros <- <- Hd Hd' Heq. f_equal.
  apply list_eq. intros i.
  destruct (decide (i < w * h * 4)) as [Hi | Hi].
  - destruct (encode_index w h i Hi) as (x & y & k & Hx & Hy & Hk & ->).
    specialize (Heq x y k Hx Hy Hk). unfold rd in Heq.
    destruct (lookup_lt_is_Some_2 d ((y * w + x) * 4 + k) ltac:(lia)) as [v Hv].
    destruct (lookup_lt_is_Some_2 d' ((y * w + x) * 4 + k) ltac:(lia)) as [v' Hv'].
    rewrite Hv, Hv' in *. simpl in Heq. congruence.
  - rewrite !lookup_ge_None_2 by lia. reflexivity.
Qed.

Lemma wf_getImageData c sx sy sw sh : wf_image (getImageData c sx sy sw sh).
Proof. unfold wf_image, getImageData. simpl. by rewrite length_map, length_seq. Qed.

Lemma wf_putImageData img dx dy c : wf_image c -> wf_image (putImageData img dx dy c).
Proof. unfold wf_image, putImageData. simpl. by rewrite length_imap. Qed.

Lemma wf_clearRect c : wf_image (clearRect c).
Proof. unfold wf_image, clearRect. simpl. by rewrite length_replicate. Qed.

Lemma channel_getImageData c sx sy sw sh x y k :
  x < sw -> y < sh -> k < 4 ->
  channel (getImageData c sx sy sw sh) x y k =
  if (sx + x <? img_width c) && (sy + y <? img_height c)
  then channel c (sx + x) (sy + y) k else 0%Z.
Proof.
  intros Hx Hy Hk. unfold channel at 1. unfold getImageData, rd.
  cbn [img_data img_width img_height].
  rewrite lookup_map, lookup_seq_lt by nia. simpl.
  destruct (decode_index sw x y k Hx Hk) as (H1 & H2 & H3 & H4).
  simpl in *. rewrite H2, H3, H4. reflexivity.
Qed.

Lemma channel_putImageData img dx dy c x y k :
  wf_image c -> x < img_width c -> y < img_height c -> k < 4 ->
  channel (putImageData img dx dy c) x y k =
  if (dx <=? x) && (x <? dx + img_width img) && (dy <=? y) && (y <? dy + img_height img)
  then channel img (x - dx) (y - dy) k else channel c x y k.
Proof.
  intros Hwf Hx Hy Hk. unfold channel at 1. unfold putImageData, rd.
  cbn [img_data img_width img_height].
  rewrite list_lookup_imap.
  destruct (lookup_lt_is_Some_2 (img_data c) ((y * img_width c + x) * 4 + k)
              (channel_bound c x y k Hwf Hx Hy Hk)) as [v Hv].
  assert (channel c x y k = v) as Hc by (unfold channel, rd; by rewrite Hv).
  rewrite Hv. simpl.
  destruct (decode_index (img_width c) x y k Hx Hk) as (H1 & H2 & H3 & H4).
  simpl in *. rewrite H2, H3, H4, Hc. reflexivity.
Qed.

(** Drawing an image of the canvas size on the cleared canvas gives the
    image. *)
Lemma drawImage_same_size image c :
  wf_image image -> img_width image = img_width c -> img_height image = img_height c ->
  drawImage image (clearRect c) = image.
Proof.
  intros Hwf Hw Hh. apply image_ext; simpl; try congruence.
  - apply wf_putImageData, wf_clearRect.
  - intros x y k Hx Hy Hk. unfold drawImage.
    rewrite channel_putImageData; simpl; try assumption; [| apply wf_clearRect].
    rewrite !Nat.sub_0_r. simpl.
    rewrite (proj2 (Nat.ltb_lt x (img_width image))) by lia.
    rewrite (proj2 (Nat.ltb_lt y (img_height image))) by lia.
    reflexivity.
Qed.


(** ** Clamping arithmetic *)

Lemma Qltb_lt (a b : Q) : Qltb a b = true <-> (a < b)%Q.
Proof.
  unfold Qltb. rewrite negb_true_iff. split.
  - intros H. apply Qnot_le_lt. intros Hle. apply Qle_bool_iff in Hle. congruence.
  - intros H. destruct (Qle_bool b a) eqn:E; [| reflexivity].
    apply Qle_bool_iff in E. exfalso. exact (Qlt_not_le _ _ H E).
Qed.

Lemma Qltb_ge (a b : Q) : Qltb a b = false <-> (b <= a)%Q.
Proof.
  unfold Qltb. rewrite negb_false_iff. apply Qle_bool_iff.
Qed.

Lemma Qltb_inject_Z (a b : Z) : Qltb (inject_Z a) (inject_Z b) = (a <? b)%Z.
Proof.
  destruct (Z.ltb_spec a b) as [H | H].
  - apply Qltb_lt. by rewrite <- Zlt_Qlt.
  - apply Qltb_ge. by rewrite <- Zle_Qle.
Qed.

Lemma Qfloor_Qmin_Z (x : Q) (b : Z) :
  Qfloor (Qmin x (inject_Z b)) = Z.min (Qfloor x) b.
Proof.
  destruct (Qlt_le_dec (inject_Z b) x) as [H | H].
  - rewrite (Qfloor_comp _ _ (Q.min_r x (inject_Z b) (Qlt_le_weak _ _ H))).
    rewrite Qfloor_Z.
    pose proof (Qfloor_resp_le _ _ (Qlt_le_weak _ _ H)) as H'.
    rewrite Qfloor_Z in H'. lia.
  - rewrite (Qfloor_comp _ _ (Q.min_l x (inject_Z b) H)).
    pose proof (Qfloor_resp_le _ _ H) as H'.
    rewrite Qfloor_Z in H'. lia.
Qed.

Lemma pixelSizeOf_pos s : 0 < pixelSizeOf s.
Proof. unfold pixelSizeOf. lia. Qed.

(** For an origin on the surface the blur is clipped to the surface: the
    rectangle written is the intersection of the request with it. *)
Lemma applyBlurEffect_clipped (s : State) (x y w h : nat) :
  1 <= w -> 1 <= h ->
  x < img_width (canvas s) -> y < img_height (canvas s) ->
  Refactored.applyBlurEffect
    (inject_Z (Z.of_nat x)) (inject_Z (Z.of_nat y))
    (inject_Z (Z.of_nat w)) (inject_Z (Z.of_nat h)) s
  = set_canvas
      (blurred s x y (Nat.min w (img_width (canvas s) - x))
         (Nat.min h (img_height (canvas s) - y))) s.
Proof.
  intros Hw Hh Hx Hy. unfold Refactored.applyBlurEffect, safeRect.
  change 1%Q with (inject_Z 1). rewrite !Qltb_inject_Z.
  rewrite !Qfloor_Qmin_Z, !Qfloor_Z.
  replace (Z.max 0 (Z.min (Z.of_nat x) (Z.of_nat (img_width (canvas s)) - 1)))
    with (Z.of_nat x) by lia.
  replace (Z.max 0 (Z.min (Z.of_nat y) (Z.of_nat (img_height (canvas s)) - 1)))
    with (Z.of_nat y) by lia.
  destruct (Z.ltb_spec (Z.of_nat w) 1); [lia |].
  destruct (Z.ltb_spec (Z.of_nat h) 1); [lia |].
  destruct (Z.ltb_spec
              (Z.min (Z.of_nat w) (Z.of_nat (img_width (canvas s)) - Z.of_nat x)) 1);
    [lia |].
  destruct (Z.ltb_spec
              (Z.min (Z.of_nat h) (Z.of_nat (img_height (canvas s)) - Z.of_nat y)) 1);
    [lia |].
  simpl orb. cbv iota. rewrite !Nat2Z.id.
  replace (Z.to_nat (Z.min (Z.of_nat w) (Z.of_nat (img_width (canvas s)) - Z.of_nat x)))
    with (Nat.min w (img_width (canvas s) - x)) by lia.
  replace (Z.to_nat (Z.min (Z.of_nat h) (Z.of_nat (img_height (canvas s)) - Z.of_nat y)))
    with (Nat.min h (img_height (canvas s) - y)) by lia.
  reflexivity.
Qed.

Lemma applyBlurEffect_inside (s : State) (x y w h : nat) :
  1 <= w -> 1 <= h ->
  x + w <= img_width (canvas s) -> y + h <= img_height (canvas s) ->
  Refactored.applyBlurEffect
    (inject_Z (Z.of_nat x)) (inject_Z (Z.of_nat y))
    (inject_Z (Z.of_nat w)) (inject_Z (Z.of_nat h)) s
  = set_canvas (blurred s x y w h) s.
Proof.
  intros Hw Hh Hxw Hyh. rewrite applyBlurEffect_clipped by lia.
  rewrite !Nat.min_l by lia. reflexivity.
Qed.

Lemma channel_blurred (s : State) (x y w h cx cy k : nat) :
  wf_image (canvas s) -> 
  x + w <= img_width (canvas s) -> y + h <= img_height (canvas s) ->
  cx < img_width (canvas s) -> cy < img_height (canvas s) -> k < 4 ->
  channel (blurred s x y w h) cx cy k =
  if (x <=? cx) && (cx <? x + w) && (y <=? cy) && (cy <? y + h)
  then channel (canvas s)
         (x + (cx - x) / pixelSizeOf s * pixelSizeOf s)
         (y + (cy - y) / pixelSizeOf s * pixelSizeOf s) k
  else channel (canvas s) cx cy k.
Proof.
  intros Hwf Hxw Hyh Hcx Hcy Hk. unfold blurred.
  rewrite channel_putImageData by assumption.
  cbn [img_width img_height].
  destruct ((x <=? cx) && (cx <? x + w) && (y <=? cy) && (cy <? y + h)) eqn:E;
    [| reflexivity].
  apply andb_prop in E as [E E4]. apply andb_prop in E as [E E3].
  apply andb_prop in E as [E1 E2].
  apply Nat.leb_le in E1, E3. apply Nat.ltb_lt in E2, E4.
  pose proof (pixelSizeOf_pos s) as Hp.
  destruct (pixelate_spec w h (pixelSizeOf s) Hp
              (img_data (getImageData (canvas s) x y w h))) as [_ Hspec].
  { pose proof (wf_getImageData (canvas s) x y w h) as Hg. exact Hg. }
  unfold channel at 1. cbn [img_data img_width].
  specialize (Hspec (cx - x) (cy - y) k ltac:(lia) ltac:(lia) Hk).
  unfold cellByte, cellIndex in Hspec. rewrite Hspec.
  pose proof (div_mul_le (pixelSizeOf s) Hp (cx - x)).
  pose proof (div_mul_le (pixelSizeOf s) Hp (cy - y)).
  pose proof (channel_getImageData (canvas s) x y w h
                ((cx - x) / pixelSizeOf s * pixelSizeOf s)
                ((cy - y) / pixelSizeOf s * pixelSizeOf s) k
                ltac:(lia) ltac:(lia) Hk) as Hget.
  assert (channel (getImageData (canvas s) x y w h)
            ((cx - x) / pixelSizeOf s * pixelSizeOf s)
            ((cy - y) / pixelSizeOf s * pixelSizeOf s) k
          = rd (img_data (getImageData (canvas s) x y w h))
              (((cy - y) / pixelSizeOf s * pixelSizeOf s * w
                + (cx - x) / pixelSizeOf s * pixelSizeOf s) * 4 + k)) as Hc
    by reflexivity.
  rewrite <- Hc, Hget.
  rewrite (proj2 (Nat.ltb_lt _ _)) by lia.
  rewrite (proj2 (Nat.ltb_lt _ _)) by lia.
  reflexivity.
Qed.


(** ** Frames: what drawing leaves alone *)

Lemma repainted_refl s : repainted s s.
Proof.
  exists (img_data (canvas s)), (ctx s). split; [reflexivity |].
  destruct s as [? ? ? ? ? ? ? ? [] ? ? ? ? ? ? ? ? ? ? ?]. reflexivity.
Qed.

Lemma repainted_trans s1 s2 s3 : repainted s1 s2 -> repainted s2 s3 -> repainted s1 s3.
Proof.
  intros (d1 & c1 & H1 & ->) (d2 & c2 & H2 & ->). exists d2, c2.
  simpl in *. split; [congruence | reflexivity].
Qed.

Lemma repainted_data s d :
  repainted s (set_canvas (mkImageData (img_width (canvas s)) (img_height (canvas s)) d) s).
Proof.
  exists d, (ctx s). split; [reflexivity |].
  destruct s as [? ? ? ? ? ? ? ? [] ? ? ? ? ? ? ? ? ? ? ?]. reflexivity.
Qed.

Lemma repainted_ctx s c : lineDash c = lineDash (ctx s) -> repainted s (set_ctx c s).
Proof.
  intros H. exists (img_data (canvas s)), c. split; [exact H |].
  destruct s as [? ? ? ? ? ? ? ? [] ? ? ? ? ? ? ? ? ? ? ?]. reflexivity.
Qed.

Lemma repainted_fields s s' :
  repainted s s' ->
  currentTool s' = currentTool s /\ currentColor s' = currentColor s /\
  strokeWidth s' = strokeWidth s /\ isDrawing s' = isDrawing s /\
  startX s' = startX s /\ startY s' = startY s /\
  annotations s' = annotations s /\ baseImage s' = baseImage s /\
  tempBlurBackup s' = tempBlurBackup s /\
  img_width (canvas s') = img_width (canvas s) /\
  img_height (canvas s') = img_height (canvas s) /\
  lineDash (ctx s') = lineDash (ctx s).
Proof. intros (d & c & H & ->). simpl. repeat split; assumption. Qed.

Lemma repainted_sameScene s s' : repainted s s' -> sameScene s' s.
Proof.
  intros H. apply repainted_fields in H. unfold sameScene. tauto.
Qed.

Lemma repainted_setStyle tool color width s : repainted s (setStyle tool color width s).
Proof.
  unfold setStyle.
  repeat (eapply repainted_trans; [| apply repainted_ctx; reflexivity]).
  eapply repainted_trans.
  2:{ destruct width as [w|]; [| apply repainted_refl].
      apply repainted_ctx. unfold set_lineWidth.
      destruct (0 <? Z.pos w)%Z; reflexivity. }
  repeat (eapply repainted_trans; [| apply repainted_ctx; reflexivity]).
  apply repainted_refl.
Qed.

Lemma repainted_repaint s f : repainted s (set_canvas (repaint (canvas s) f) s).
Proof. apply repainted_data. Qed.

Lemma repainted_putImageData s img dx dy :
  repainted s (set_canvas (putImageData img dx dy (canvas s)) s).
Proof. apply repainted_data. Qed.

Lemma repainted_clearRect s : repainted s (set_canvas (clearRect (canvas s)) s).
Proof. apply repainted_data. Qed.

Section Frames.

Variable api : CanvasAPI.

Lemma repainted_drawArrow x1 y1 x2 y2 s : repainted s (drawArrow api x1 y1 x2 y2 s).
Proof.
  unfold drawArrow. eapply repainted_trans; apply repainted_repaint.
Qed.

Lemma repainted_drawRect x1 y1 x2 y2 s : repainted s (drawRect api x1 y1 x2 y2 s).
Proof. apply repainted_repaint. Qed.

Lemma repainted_drawCircle x1 y1 x2 y2 s : repainted s (drawCircle api x1 y1 x2 y2 s).
Proof. apply repainted_repaint. Qed.

Lemma repainted_drawHighlight x1 y1 x2 y2 s : repainted s (drawHighlight api x1 y1 x2 y2 s).
Proof. apply repainted_repaint. Qed.

Lemma repainted_drawBlurPreview x1 y1 x2 y2 s :
  lineDash (ctx s) = [] -> repainted s (drawBlurPreview api x1 y1 x2 y2 s).
Proof.
  intros Hd. unfold drawBlurPreview.
  exists (img_data (canvas (drawBlurPreview api x1 y1 x2 y2 s))),
         (ctx (drawBlurPreview api x1 y1 x2 y2 s)).
  split; [simpl; congruence |].
  destruct s as [? ? ? ? ? ? ? ? [] ? ? ? ? ? ? ? ? ? ? ?]. reflexivity.
Qed.

Lemma repainted_applyBlurEffect x y w h s :
  repainted s (Refactored.applyBlurEffect x y w h s).
Proof.
  unfold Refactored.applyBlurEffect.
  destruct (Qltb w 1 || Qltb h 1); [apply repainted_refl |].
  destruct (safeRect (canvas s) x y w h) as [[[safeX safeY] safeWidth] safeHeight].
  destruct ((safeWidth <? 1)%Z || (safeHeight <? 1)%Z); [apply repainted_refl |].
  apply repainted_putImageData.
Qed.

Lemma repainted_label txt color fontSize x y s :
  repainted s
    (let s := setStyle text color None s in
     let s := set_ctx (set_font (fontOf fontSize) (ctx s)) s in
     set_canvas (repaint (canvas s)
                   (api_fillText api (font (ctx s)) (fillStyle (ctx s)) txt x y)) s).
Proof.
  cbv zeta.
  eapply repainted_trans; [| apply repainted_repaint].
  eapply repainted_trans; [| apply repainted_ctx; reflexivity].
  apply repainted_setStyle.
Qed.

Lemma repainted_redrawAnnotation_R s a : repainted s (Refactored.redrawAnnotation api s a).
Proof.
  destruct a as [tool x1 y1 x2 y2 color w orig | x y txt color fontSize].
  - destruct tool; simpl;
      first [ apply repainted_applyBlurEffect
            | apply repainted_setStyle
            | eapply repainted_trans;
              [| first [ apply repainted_drawArrow | apply repainted_drawRect
                       | apply repainted_drawCircle | apply repainted_drawHighlight ]];
              apply repainted_setStyle ].
  - apply repainted_label.
Qed.

Lemma repainted_redrawAnnotation_O s a : repainted s (Original.redrawAnnotation api s a).
Proof.
  destruct a as [tool x1 y1 x2 y2 color w orig | x y txt color fontSize].
  - destruct tool; simpl;
      first [ apply repainted_applyBlurEffect
            | apply repainted_setStyle
            | eapply repainted_trans;
              [| first [ apply repainted_drawArrow | apply repainted_drawRect
                       | apply repainted_drawCircle | apply repainted_drawHighlight ]];
              apply repainted_setStyle ].
  - apply repainted_label.
Qed.

Lemma repainted_fold (f : State -> Annotation -> State) :
  (forall s a, repainted s (f s a)) ->
  forall l s, repainted s (fold_left f l s).
Proof.
  intros Hf. induction l as [|a l IH]; intros s; simpl.
  - apply repainted_refl.
  - eapply repainted_trans; [apply Hf | apply IH].
Qed.

Lemma repainted_base s :
  repainted s
    (match baseImage s with
     | Some image => set_canvas (drawImage image (canvas s)) s
     | None => s
     end).
Proof.
  destruct (baseImage s); [apply repainted_putImageData | apply repainted_refl].
Qed.

Lemma repainted_redrawCanvas_R s : repainted s (Refactored.redrawCanvas api s).
Proof.
  unfold Refactored.redrawCanvas. cbv zeta.
  eapply repainted_trans;
    [| apply repainted_fold; apply repainted_redrawAnnotation_R].
  eapply repainted_trans; [| apply repainted_base].
  apply repainted_clearRect.
Qed.

Lemma repainted_redrawCanvas_O s : repainted s (Original.redrawCanvas api s).
Proof.
  unfold Original.redrawCanvas. cbv zeta.
  eapply repainted_trans;
    [| apply repainted_fold; apply repainted_redrawAnnotation_O].
  eapply repainted_trans; [| apply repainted_base].
  apply repainted_clearRect.
Qed.

Lemma repainted_draw_R x y s :
  (currentTool s = blur -> lineDash (ctx s) = []) ->
  repainted s (Refactored.draw api x y s).
Proof.
  intros Hdash. unfold Refactored.draw.
  destruct (negb (isDrawing s)); [apply repainted_refl |]. cbv zeta.
  pose proof (repainted_redrawCanvas_R s) as H1.
  pose proof (repainted_setStyle (currentTool (Refactored.redrawCanvas api s))
                (currentColor (Refactored.redrawCanvas api s))
                (Some (strokeWidth (Refactored.redrawCanvas api s)))
                (Refactored.redrawCanvas api s)) as H2.
  pose proof (repainted_trans _ _ _ H1 H2) as H12.
  destruct (repainted_fields _ _ H12) as (Ht & _ & _ & _ & _ & _ & _ & _ & _ & _ & _ & Hd).
  eapply repainted_trans; [exact H12 |].
  destruct (currentTool (setStyle _ _ _ _)) eqn:E;
    first [ apply repainted_drawArrow | apply repainted_drawRect
          | apply repainted_drawCircle | apply repainted_drawHighlight
          | apply repainted_refl | idtac ].
  apply repainted_drawBlurPreview. rewrite Hd. apply Hdash. congruence.
Qed.

Lemma repainted_draw_O x y s :
  (currentTool s = blur -> lineDash (ctx s) = []) ->
  repainted s (Original.draw api x y s).
Proof.
  intros Hdash. unfold Original.draw.
  destruct (negb (isDrawing s)); [apply repainted_refl |]. cbv zeta.
  pose proof (repainted_redrawCanvas_O s) as H1.
  pose proof (repainted_setStyle (currentTool (Original.redrawCanvas api s))
                (currentColor (Original.redrawCanvas api s))
                (Some (strokeWidth (Original.redrawCanvas api s)))
                (Original.redrawCanvas api s)) as H2.
  pose proof (repainted_trans _ _ _ H1 H2) as H12.
  destruct (repainted_fields _ _ H12) as (Ht & _ & _ & _ & _ & _ & _ & _ & _ & _ & _ & Hd).
  eapply repainted_trans; [exact H12 |].
  destruct (currentTool (setStyle _ _ _ _)) eqn:E;
    first [ apply repainted_drawArrow | apply repainted_drawRect
          | apply repainted_drawCircle | apply repainted_drawHighlight
          | apply repainted_refl | idtac ].
  apply repainted_drawBlurPreview. rewrite Hd. apply Hdash. congruence.
Qed.

End Frames.


Section Scenes.

Variable api : CanvasAPI.

Lemma sameBrush_applyBlurEffect x y w h s1 s2 :
  sameBrush s1 s2 ->
  sameBrush (Refactored.applyBlurEffect x y w h s1) (Refactored.applyBlurEffect x y w h s2).
Proof.
  intros (Hc & Hw & Hd). unfold Refactored.applyBlurEffect.
  rewrite Hc, Hw.
  destruct (Qltb w 1 || Qltb h 1); [repeat split; assumption |].
  destruct (safeRect (canvas s2) x y w h) as [[[safeX safeY] safeWidth] safeHeight].
  destruct ((safeWidth <? 1)%Z || (safeHeight <? 1)%Z); [repeat split; assumption |].
  repeat split; simpl; assumption.
Qed.

Lemma setStyle_Some tool color w s :
  setStyle tool color (Some w) s =
  set_ctx (mkContext color
             (match tool with highlight => (color ++ "40")%string | _ => color end)
             (Z.pos w) "round" "round" (font (ctx s)) (lineDash (ctx s))) s.
Proof.
  destruct s as [? ? ? ? ? ? ? ? ? [] ? ? ? ? ? ? ? ? ? ?]. reflexivity.
Qed.

Lemma setStyle_None tool color s :
  setStyle tool color None s =
  set_ctx (mkContext color
             (match tool with highlight => (color ++ "40")%string | _ => color end)
             (lineWidth (ctx s)) "round" "round" (font (ctx s)) (lineDash (ctx s))) s.
Proof.
  destruct s as [? ? ? ? ? ? ? ? ? [] ? ? ? ? ? ? ? ? ? ?]. reflexivity.
Qed.

Lemma sameBrush_redrawAnnotation_R s1 s2 a :
  sameBrush s1 s2 ->
  sameBrush (Refactored.redrawAnnotation api s1 a) (Refactored.redrawAnnotation api s2 a).
Proof.
  intros H.
  destruct a as [tool x1 y1 x2 y2 color w orig | x y txt color fontSize];
    [destruct tool |]; unfold Refactored.redrawAnnotation;
    try (apply sameBrush_applyBlurEffect; exact H);
    rewrite ?setStyle_Some, ?setStyle_None;
    destruct H as (Hc & Hw & Hd);
    unfold sameBrush, penOf; simpl; rewrite ?Hc, ?Hw, ?Hd; repeat split; reflexivity.
Qed.

Lemma sameBrush_redrawAnnotation_O s1 s2 a :
  sameBrush s1 s2 ->
  sameBrush (Original.redrawAnnotation api s1 a) (Original.redrawAnnotation api s2 a).
Proof.
  intros H.
  destruct a as [tool x1 y1 x2 y2 color w orig | x y txt color fontSize];
    [destruct tool |]; unfold Original.redrawAnnotation;
    rewrite ?setStyle_Some, ?setStyle_None;
    destruct H as (Hc & Hw & Hd);
    unfold sameBrush, penOf; simpl; rewrite ?Hc, ?Hw, ?Hd; repeat split; reflexivity.
Qed.

Lemma sameBrush_fold (f : State -> Annotation -> State) :
  (forall s1 s2 a, sameBrush s1 s2 -> sameBrush (f s1 a) (f s2 a)) ->
  forall l s1 s2, sameBrush s1 s2 -> sameBrush (fold_left f l s1) (fold_left f l s2).
Proof.
  intros Hf. induction l as [|a l IH]; intros s1 s2 H; simpl; auto.
Qed.

(** The start of a recomposite: the cleared bitmap under the base
    image. *)
Lemma redrawCanvas_unfold_R s :
  Refactored.redrawCanvas api s =
  fold_left (Refactored.redrawAnnotation api) (annotations s)
    (set_canvas (match baseImage s with
                 | Some image => drawImage image (clearRect (canvas s))
                 | None => clearRect (canvas s)
                 end) s).
Proof.
  unfold Refactored.redrawCanvas.
  destruct s as [? ? ? ? ? ? ? [] ? ? ? ? ? ? ? ? ? ? ? ?]; reflexivity.
Qed.

Lemma redrawCanvas_unfold_O s :
  Original.redrawCanvas api s =
  fold_left (Original.redrawAnnotation api) (annotations s)
    (set_canvas (match baseImage s with
                 | Some image => drawImage image (clearRect (canvas s))
                 | None => clearRect (canvas s)
                 end) s).
Proof.
  unfold Original.redrawCanvas.
  destruct s as [? ? ? ? ? ? ? [] ? ? ? ? ? ? ? ? ? ? ? ?]; reflexivity.
Qed.

(** A recomposite reads the store, the base image, the stroke width, the
    size of the canvas and the dash list, and nothing else. *)
Lemma redrawCanvas_scene_R s1 s2 :
  sameScene s1 s2 ->
  canvas (Refactored.redrawCanvas api s1) = canvas (Refactored.redrawCanvas api s2).
Proof.
  intros (Ha & Hb & Hw & Hcw & Hch & Hd). rewrite !redrawCanvas_unfold_R.
  assert (clearRect (canvas s1) = clearRect (canvas s2)) as Hclear
    by (unfold clearRect; rewrite Hcw, Hch; reflexivity).
  rewrite Ha, Hb, Hclear.
  apply (sameBrush_fold _ sameBrush_redrawAnnotation_R).
  repeat split; simpl; assumption.
Qed.

Lemma redrawCanvas_scene_O s1 s2 :
  sameScene s1 s2 ->
  canvas (Original.redrawCanvas api s1) = canvas (Original.redrawCanvas api s2).
Proof.
  intros (Ha & Hb & Hw & Hcw & Hch & Hd). rewrite !redrawCanvas_unfold_O.
  assert (clearRect (canvas s1) = clearRect (canvas s2)) as Hclear
    by (unfold clearRect; rewrite Hcw, Hch; reflexivity).
  rewrite Ha, Hb, Hclear.
  apply (sameBrush_fold _ sameBrush_redrawAnnotation_O).
  repeat split; simpl; assumption.
Qed.

End Scenes.


(** ** Reachable states *)

(** The dash list is set for the stroke of the blur preview only: every
    state the refactored revision reaches has an empty one. *)
Lemma lineDash_stopDrawing (x y : Q) (s : State) :
  lineDash (ctx s) = [] -> lineDash (ctx (Refactored.stopDrawing x y s)) = [].
Proof.
  intros Hd. unfold Refactored.stopDrawing.
  destruct (negb (isDrawing s)); [exact Hd |]. cbv zeta.
  cbn [ctx updateUndoButton set_undoBtn_disabled set_tempBlurBackup set_isDrawing].
  destruct (currentTool s); try exact Hd.
  destruct (Qltb 1 (Qabs (x - startX s)) && Qltb 1 (Qabs (y - startY s)));
    [| exact Hd].
  pose proof (repainted_applyBlurEffect (Qmin (startX s) x) (Qmin (startY s) y)
                (Qabs (x - startX s)) (Qabs (y - startY s))
                (set_annotations
                   (annotations s ++
                    [Drag blur (startX s) (startY s) x y (currentColor s)
                       (strokeWidth s) (tempBlurBackup s)]) s)) as H.
  apply repainted_fields in H. cbn [ctx set_annotations] in H.
  rewrite <- Hd. tauto.
Qed.

Lemma lineDash_stepRefactored (api : CanvasAPI) (s : State) (e : Event) :
  lineDash (ctx s) = [] -> lineDash (ctx (stepRefactored api s e)) = [].
Proof.
  intros Hd. destruct e as [img | tool | color | n | x y | x y | x y | x y | value
                            | | | x y | x y | | ]; cbn [stepRefactored];
    try exact Hd.
  - reflexivity.
  - unfold Refactored.startDrawing. cbv zeta.
    destruct (currentTool _); exact Hd.
  - pose proof (repainted_draw_R api x y s (fun _ => Hd)) as H.
    apply repainted_fields in H. rewrite <- Hd. tauto.
  - apply lineDash_stopDrawing, Hd.
  - apply lineDash_stopDrawing, Hd.
  - unfold Refactored.submitTextModal. cbv zeta.
    destruct (negb (nonEmpty (sanitizeInput (trim value)))); [exact Hd |].
    cbn [ctx updateUndoButton set_undoBtn_disabled].
    match goal with |- lineDash (ctx (Refactored.redrawCanvas api ?s0)) = [] =>
      pose proof (repainted_redrawCanvas_R api s0) as H end.
    apply repainted_fields in H. cbn [ctx set_annotations] in H.
    rewrite <- Hd. tauto.
  - unfold Refactored.undo. destruct (length (annotations s) =? 0); [exact Hd |].
    cbv zeta.
    cbn [ctx updateUndoButton set_undoBtn_disabled showNotification set_notification].
    match goal with |- lineDash (ctx (Refactored.redrawCanvas api ?s0)) = [] =>
      pose proof (repainted_redrawCanvas_R api s0) as H;
      assert (lineDash (ctx s0) = []) as Hd0 end.
    { cbn [ctx set_annotations].
      destruct (last (annotations s)) as [[[] ? ? ? ? ? ? [?|] | ] | ]; exact Hd. }
    apply repainted_fields in H. rewrite <- Hd0. tauto.
  - unfold Refactored.clearAnnotations. cbv zeta.
    cbn [ctx updateUndoButton set_undoBtn_disabled showNotification set_notification].
    pose proof (repainted_redrawCanvas_R api (set_annotations [] s)) as H.
    apply repainted_fields in H. cbn [ctx set_annotations] in H.
    rewrite <- Hd. tauto.
  - unfold startAreaDrag. destruct (negb (isSelectingArea s)); exact Hd.
  - unfold Refactored.finishAreaSelection.
    destruct (negb (isDrawing s) || negb (isSelectingArea s)); [exact Hd |]. cbv zeta.
    destruct (Qltb _ 10 || Qltb _ 10); [exact Hd |].
    destruct (capturedScreenImageObj s); [| exact Hd].
    destruct (api_crop api _ _ _ _ _); [reflexivity | exact Hd].
Qed.

Lemma lineDash_runRefactored (api : CanvasAPI) (events : list Event) :
  lineDash (ctx (runRefactored api events)) = [].
Proof.
  unfold runRefactored.
  assert (forall s, lineDash (ctx s) = [] ->
            lineDash (ctx (fold_left (stepRefactored api) events s)) = []) as H.
  { induction events as [|e events IH]; intros s Hd; simpl; [exact Hd |].
    apply IH, lineDash_stepRefactored, Hd. }
  apply H. reflexivity.
Qed.


(** ** Recomposite *)

(** C6: recomposite is idempotent.  In both revisions a second
    [redrawCanvas] with no mutation in between yields the pixel buffer
    of the first, for every base image, store and rasteriser. *)
Theorem recomposite_idempotent (api : CanvasAPI) (s : State) :
  canvas (Refactored.redrawCanvas api (Refactored.redrawCanvas api s))
  = canvas (Refactored.redrawCanvas api s)
  /\ canvas (Original.redrawCanvas api (Original.redrawCanvas api s))
     = canvas (Original.redrawCanvas api s).
Proof.
  split.
  - apply redrawCanvas_scene_R, repainted_sameScene, repainted_redrawCanvas_R.
  - apply redrawCanvas_scene_O, repainted_sameScene, repainted_redrawCanvas_O.
Qed.

(** ** Undo on an empty store *)

(** C10: with an empty store [undo] returns at its first line; the
    state, hence the store, the pixel buffer and [canUndo], is
    unchanged, in both revisions. *)
Theorem undo_empty_store (api : CanvasAPI) (s : State) :
  annotations s = [] ->
  (Refactored.undo api s = s /\ Original.undo api s = s)
  /\ annotations (Refactored.undo api s) = annotations s
  /\ canvas (Refactored.undo api s) = canvas s
  /\ canUndo (Refactored.undo api s) = canUndo s.
Proof.
  intros H.
  assert (Refactored.undo api s = s) as HR
    by (unfold Refactored.undo; rewrite H; reflexivity).
  assert (Original.undo api s = s) as HO
    by (unfold Original.undo; rewrite H; reflexivity).
  rewrite HR. repeat split; assumption.
Qed.

Lemma undo_empty_store_witness :
  annotations (loadImageToEditor sampleImage initialState) = []
  /\ Refactored.undo dotAPI (loadImageToEditor sampleImage initialState)
     = loadImageToEditor sampleImage initialState.
Proof.
  split; [reflexivity |].
  apply (undo_empty_store dotAPI (loadImageToEditor sampleImage initialState)).
  reflexivity.
Defined.

(** ** Clear *)

(** C8: after [clearAnnotations] the store is empty, the buffer is the
    recomposite of the empty store over the current base image, that is
    the base image drawn on the cleared bitmap (the base image itself
    when it has the size of the canvas), and [canUndo] is false; in both
    revisions. *)
Theorem clear_resets (api : CanvasAPI) (s : State) :
  let under :=
    match baseImage s with
    | Some image => drawImage image (clearRect (canvas s))
    | None => clearRect (canvas s)
    end in
  (annotations (Refactored.clearAnnotations api s) = []
   /\ canvas (Refactored.clearAnnotations api s)
      = canvas (Refactored.redrawCanvas api (set_annotations [] s))
   /\ canvas (Refactored.clearAnnotations api s) = under
   /\ canUndo (Refactored.clearAnnotations api s) = false)
  /\ (annotations (Original.clearAnnotations api s) = []
      /\ canvas (Original.clearAnnotations api s)
         = canvas (Original.redrawCanvas api (set_annotations [] s))
      /\ canvas (Original.clearAnnotations api s) = under
      /\ canUndo (Original.clearAnnotations api s) = false)
  /\ (forall image,
        baseImage s = Some image -> wf_image image ->
        img_width image = img_width (canvas s) ->
        img_height image = img_height (canvas s) ->
        under = image).
Proof.
  cbv zeta. split; [| split].
  - unfold Refactored.clearAnnotations. cbv zeta.
    pose proof (redrawCanvas_unfold_R api (set_annotations [] s)) as Hu.
    simpl in Hu.
    unfold canUndo. simpl. rewrite Hu. simpl. repeat split; reflexivity.
  - unfold Original.clearAnnotations. cbv zeta.
    pose proof (redrawCanvas_unfold_O api (set_annotations [] s)) as Hu.
    simpl in Hu.
    unfold canUndo. simpl. rewrite Hu. simpl. repeat split; reflexivity.
  - intros image -> Hwf Hw Hh. apply drawImage_same_size; assumption.
Qed.

Lemma clear_resets_witness :
  canvas (Refactored.clearAnnotations dotAPI
            (runRefactored dotAPI
               [LoadImage sampleImage; MouseDown 5 1; MouseMove 6 1; MouseUp 6 1]))
  = sampleImage.
Proof.
  pose proof (clear_resets dotAPI
                (runRefactored dotAPI
                   [LoadImage sampleImage; MouseDown 5 1; MouseMove 6 1; MouseUp 6 1]))
    as (HR & _ & Himg).
  cbv zeta in HR, Himg.
  destruct HR as (_ & _ & Hc & _). rewrite Hc.
  apply Himg; vm_compute; reflexivity.
Defined.


(** ** Gestures *)

Section Gestures.

Variable api : CanvasAPI.

Lemma repainted_moves_R moves s :
  (currentTool s = blur -> lineDash (ctx s) = []) ->
  repainted s (fold_left (fun s m => Refactored.draw api (fst m) (snd m) s) moves s).
Proof.
  revert s. induction moves as [|m moves IH]; intros s Hdash; simpl.
  - apply repainted_refl.
  - pose proof (repainted_draw_R api (fst m) (snd m) s Hdash) as H.
    eapply repainted_trans; [exact H |]. apply IH.
    destruct (repainted_fields _ _ H) as (Ht & _ & _ & _ & _ & _ & _ & _ & _ & _ & _ & Hd).
    rewrite Ht, Hd. exact Hdash.
Qed.

Lemma repainted_moves_O moves s :
  (currentTool s = blur -> lineDash (ctx s) = []) ->
  repainted s (fold_left (fun s m => Original.draw api (fst m) (snd m) s) moves s).
Proof.
  revert s. induction moves as [|m moves IH]; intros s Hdash; simpl.
  - apply repainted_refl.
  - pose proof (repainted_draw_O api (fst m) (snd m) s Hdash) as H.
    eapply repainted_trans; [exact H |]. apply IH.
    destruct (repainted_fields _ _ H) as (Ht & _ & _ & _ & _ & _ & _ & _ & _ & _ & _ & Hd).
    rewrite Ht, Hd. exact Hdash.
Qed.




Lemma undo_last_O s l a :
  annotations s = l ++ [a] ->
  annotations (Original.undo api s) = l
  /\ canvas (Original.undo api s)
     = canvas (Original.redrawCanvas api (set_annotations l s)).
Proof.
  intros Ha. unfold Original.undo. rewrite Ha, length_app. simpl.
  replace (length l + 1 =? 0) with false by (symmetry; apply Nat.eqb_neq; lia).
  rewrite removelast_last. simpl. split; [| reflexivity].
  pose proof (repainted_redrawCanvas_O api (set_annotations l s)) as H.
  apply repainted_fields in H. simpl in H. tauto.
Qed.

End Gestures.


(** ** Commits that leave the buffer composited *)

Section Composited.

Variable api : CanvasAPI.

Lemma stopDrawing_vector_R x y s :
  isDrawing s = true -> currentTool s <> blur ->
  Refactored.stopDrawing x y s =
  updateUndoButton
    (set_tempBlurBackup None
       (set_isDrawing false
          (set_annotations
             (annotations s ++
              [Drag (currentTool s) (startX s) (startY s) x y (currentColor s)
                 (strokeWidth s) None]) s))).
Proof.
  intros Hd Hb. unfold Refactored.stopDrawing. rewrite Hd. cbn [negb]. cbv zeta.
  destruct (currentTool s); try congruence; reflexivity.
Qed.

Lemma draw_vector_R x y s :
  isDrawing s = true -> currentTool s <> blur -> currentTool s <> text ->
  Refactored.draw api x y s =
  Refactored.redrawAnnotation api (Refactored.redrawCanvas api s)
    (Drag (currentTool s) (startX s) (startY s) x y (currentColor s)
       (strokeWidth s) None).
Proof.
  intros Hd Hb Ht. unfold Refactored.draw. rewrite Hd. cbn [negb]. cbv zeta.
  pose proof (repainted_redrawCanvas_R api s) as HF.
  apply repainted_fields in HF.
  destruct HF as (F1 & F2 & F3 & F4 & F5 & F6 & _).
  rewrite !setStyle_Some. cbn [currentTool startX startY set_ctx].
  rewrite F1, F2, F3, F5, F6.
  unfold Refactored.redrawAnnotation. rewrite !setStyle_Some.
  destruct (currentTool s); try congruence; reflexivity.
Qed.

(** The preview of the last move is the replay of the annotation: after
    a drag with a vector tool released where the pointer last moved, the
    buffer is the recomposite of the store. *)
Lemma drag_vector_composited_R x0 y0 moves x y s :
  currentTool s <> blur -> currentTool s <> text ->
  let s' := dragRefactored api x0 y0 (moves ++ [(x, y)]) x y s in
  canvas s' = canvas (Refactored.redrawCanvas api s').
Proof.
  intros Hb Ht. unfold dragRefactored. rewrite fold_left_app. cbn [fold_left fst snd].
  set (s1 := Refactored.startDrawing x0 y0 s).
  assert (s1 = set_start x0 y0 (set_isDrawing true s)) as Hs1
    by (unfold s1, Refactored.startDrawing; simpl; destruct (currentTool s); congruence).
  set (sm := fold_left _ moves s1).
  assert (repainted s1 sm) as Hrep.
  { apply repainted_moves_R. rewrite Hs1. simpl. congruence. }
  apply repainted_fields in Hrep.
  destruct Hrep as (M1 & M2 & M3 & M4 & M5 & M6 & M7 & M8 & M9 & M10 & M11 & M12).
  rewrite Hs1 in M1, M2, M3, M4, M5, M6, M7, M8, M9, M10, M11, M12. simpl in *.
  rewrite draw_vector_R by congruence.
  set (a := Drag (currentTool sm) (startX sm) (startY sm) x y (currentColor sm)
              (strokeWidth sm) None).
  set (F := Refactored.redrawCanvas api sm).
  pose proof (repainted_redrawCanvas_R api sm) as HF. fold F in HF.
  pose proof (repainted_redrawAnnotation_R api F a) as HA.
  pose proof (repainted_trans _ _ _ HF HA) as HFA.
  apply repainted_fields in HFA.
  destruct HFA as (A1 & A2 & A3 & A4 & A5 & A6 & A7 & A8 & A9 & A10 & A11 & A12).
  rewrite stopDrawing_vector_R by congruence.
  rewrite A1, A2, A3, A5, A6, A7. fold a.
  set (RA := Refactored.redrawAnnotation api F a) in *.
  transitivity (canvas RA); [reflexivity |].
  transitivity
    (canvas (Refactored.redrawCanvas api (set_annotations (annotations sm ++ [a]) sm))).
  - rewrite redrawCanvas_unfold_R. cbn [annotations baseImage canvas set_annotations].
    rewrite fold_left_app. cbn [fold_left].
    apply sameBrush_redrawAnnotation_R.
    unfold F. rewrite redrawCanvas_unfold_R.
    apply sameBrush_fold; [apply sameBrush_redrawAnnotation_R |].
    repeat split.
  - apply redrawCanvas_scene_R.
    repeat split; cbn [annotations baseImage strokeWidth canvas ctx set_annotations
      updateUndoButton set_undoBtn_disabled set_tempBlurBackup set_isDrawing];
      congruence.
Qed.

End Composited.


(** ** Undo of a vector commit *)





(** ** Blur gestures *)

Lemma redrawn_refl s : redrawn s s.
Proof.
  exists (canvas s), (ctx s).
  destruct s as [? ? ? ? ? ? ? ? ? ? ? ? ? ? ? ? ? ? ? ?]. reflexivity.
Qed.

Lemma redrawn_trans s1 s2 s3 : redrawn s1 s2 -> redrawn s2 s3 -> redrawn s1 s3.
Proof. intros (b1 & c1 & ->) (b2 & c2 & ->). exists b2, c2. reflexivity. Qed.

Lemma redrawn_set_ctx s c : redrawn s (set_ctx c s).
Proof.
  exists (canvas s), c.
  destruct s as [? ? ? ? ? ? ? ? ? ? ? ? ? ? ? ? ? ? ? ?]. reflexivity.
Qed.

Lemma redrawn_set_canvas s b : redrawn s (set_canvas b s).
Proof.
  exists b, (ctx s).
  destruct s as [? ? ? ? ? ? ? ? ? ? ? ? ? ? ? ? ? ? ? ?]. reflexivity.
Qed.

Lemma repainted_redrawn s s' : repainted s s' -> redrawn s s'.
Proof. intros (d & c & _ & ->). eexists _, _. reflexivity. Qed.

Lemma redrawn_fields s s' :
  redrawn s s' ->
  currentTool s' = currentTool s /\ currentColor s' = currentColor s /\
  strokeWidth s' = strokeWidth s /\ isDrawing s' = isDrawing s /\
  startX s' = startX s /\ startY s' = startY s /\
  annotations s' = annotations s /\ baseImage s' = baseImage s /\
  tempBlurBackup s' = tempBlurBackup s.
Proof. intros (b & c & ->). simpl. repeat split. Qed.

Section BlurGesture.

Variable api : CanvasAPI.

Lemma redrawn_drawBlurPreview x1 y1 x2 y2 s :
  redrawn s (drawBlurPreview api x1 y1 x2 y2 s).
Proof.
  unfold drawBlurPreview. cbv zeta.
  repeat (eapply redrawn_trans;
          [| first [apply redrawn_set_ctx | apply redrawn_set_canvas]]).
  apply redrawn_refl.
Qed.

Lemma redrawn_draw_R x y s : redrawn s (Refactored.draw api x y s).
Proof.
  unfold Refactored.draw.
  destruct (negb (isDrawing s)); [apply redrawn_refl |]. cbv zeta.
  eapply redrawn_trans.
  { apply repainted_redrawn. eapply repainted_trans;
      [apply repainted_redrawCanvas_R | apply repainted_setStyle]. }
  destruct (currentTool (setStyle _ _ _ _)).
  - apply repainted_redrawn, repainted_drawArrow.
  - apply repainted_redrawn, repainted_drawRect.
  - apply repainted_redrawn, repainted_drawCircle.
  - apply repainted_redrawn, repainted_drawHighlight.
  - apply redrawn_drawBlurPreview.
  - apply redrawn_refl.
Qed.






End BlurGesture.

(** ** The snapshot of a blur annotation *)





(** ** Degenerate drags *)





(** ** Pixelation *)

(** [applyBlurPermanently] pixelates as [applyBlurEffect] does, at the
    rectangle normalised from the two corners. *)
Lemma applyBlurPermanently_canvas (x1 y1 x2 y2 : Q) (s : State) :
  canvas (Original.applyBlurPermanently x1 y1 x2 y2 s)
  = canvas (Refactored.applyBlurEffect (Qmin x1 x2) (Qmin y1 y2)
              (Qabs (x2 - x1)) (Qabs (y2 - y1)) s).
Proof.
  unfold Original.applyBlurPermanently, Refactored.applyBlurEffect. cbv zeta.
  destruct (Qltb (Qabs (x2 - x1)) 1 || Qltb (Qabs (y2 - y1)) 1); [reflexivity |].
  destruct (safeRect (canvas s) (Qmin x1 x2) (Qmin y1 y2)
              (Qabs (x2 - x1)) (Qabs (y2 - y1)))
    as [[[safeX safeY] safeWidth] safeHeight].
  destruct ((safeWidth <? 1)%Z || (safeHeight <? 1)%Z); reflexivity.
Qed.

Lemma applyBlurEffect_degenerate (x y w h : Q) (s : State) :
  (w < 1 \/ h < 1)%Q -> Refactored.applyBlurEffect x y w h s = s.
Proof.
  intros H. unfold Refactored.applyBlurEffect.
  assert (Qltb w 1 || Qltb h 1 = true) as ->; [| reflexivity].
  apply orb_true_iff. destruct H as [H | H]; [left | right]; apply Qltb_lt; exact H.
Qed.

(** C4: on a rectangle of whole pixels inside the surface the
    pixelation, with block size [p = max(8, strokeWidth * 2)], leaves
    the state but for the bitmap, keeps the size of the bitmap, gives
    every pixel of the rectangle the four bytes of the top-left pixel of
    its [p] by [p] block (blocks counted from the corner of the
    rectangle, the last row and column clipped) and leaves the pixels
    outside; with a width or a height below 1 it does nothing.  The
    original revision runs the same loops on the rectangle normalised
    from its two corners. *)
Theorem pixelation_blocks (s : State) (x y w h : nat) :
  wf_image (canvas s) ->
  x + w <= img_width (canvas s) -> y + h <= img_height (canvas s) ->
  let p := Z.to_nat (Z.max 8 (Z.pos (strokeWidth s) * 2)) in
  let s' := Refactored.applyBlurEffect
              (inject_Z (Z.of_nat x)) (inject_Z (Z.of_nat y))
              (inject_Z (Z.of_nat w)) (inject_Z (Z.of_nat h)) s in
  (w < 1 \/ h < 1 -> s' = s)
  /\ (1 <= w -> 1 <= h ->
      s' = set_canvas (canvas s') s
      /\ img_width (canvas s') = img_width (canvas s)
      /\ img_height (canvas s') = img_height (canvas s)
      /\ wf_image (canvas s')
      /\ forall cx cy k,
           cx < img_width (canvas s) -> cy < img_height (canvas s) -> k < 4 ->
           channel (canvas s') cx cy k =
           if (x <=? cx) && (cx <? x + w) && (y <=? cy) && (cy <? y + h)
           then channel (canvas s) (x + (cx - x) / p * p) (y + (cy - y) / p * p) k
           else channel (canvas s) cx cy k)
  /\ (forall qx qy qw qh : Q,
        (qw < 1 \/ qh < 1)%Q -> Refactored.applyBlurEffect qx qy qw qh s = s)
  /\ (forall x1 y1 x2 y2 : Q,
        canvas (Original.applyBlurPermanently x1 y1 x2 y2 s)
        = canvas (Refactored.applyBlurEffect (Qmin x1 x2) (Qmin y1 y2)
                    (Qabs (x2 - x1)) (Qabs (y2 - y1)) s)).
Proof.
  intros Hwf Hxw Hyh p s'. split; [| split; [| split]].
  - intros Hsmall. apply applyBlurEffect_degenerate.
    change 1%Q with (inject_Z 1). rewrite <- !Zlt_Qlt. lia.
  - intros Hw Hh.
    assert (s' = set_canvas (blurred s x y w h) s) as Hs'
      by (apply applyBlurEffect_inside; assumption).
    rewrite Hs'. cbn [canvas set_canvas].
    split; [reflexivity |]. split; [reflexivity |]. split; [reflexivity |].
    split; [apply wf_putImageData; exact Hwf |].
    intros cx cy k Hcx Hcy Hk. apply channel_blurred; assumption.
  - intros qx qy qw qh. apply applyBlurEffect_degenerate.
  - intros x1 y1 x2 y2. apply applyBlurPermanently_canvas.
Qed.

Lemma pixelation_blocks_witness :
  let s := loadImageToEditor sampleImage initialState in
  channel (canvas (Refactored.applyBlurEffect 1 0 10 3 s)) 10 2 0
  = channel (canvas s) 9 0 0.
Proof.
  cbv zeta.
  destruct (pixelation_blocks (loadImageToEditor sampleImage initialState) 1 0 10 3)
    as (_ & H & _).
  - vm_compute. reflexivity.
  - vm_compute. lia.
  - vm_compute. lia.
  - destruct H as (_ & _ & _ & _ & H); [lia | lia |].
    exact (H 10 2 0 ltac:(vm_compute; lia) ltac:(vm_compute; lia) ltac:(lia)).
Defined.

(** ** Defects *)

(** C7, at a failing input.  A blur dragged from (3, 0) until the
    pointer leaves the canvas at (-2, 2) asks for the columns -2 to 2;
    the intersection with the surface is the columns 0 to 2.  The clamp
    moves the origin to 0 and keeps the width 5: the columns 3 and 4 are
    overwritten too, in both revisions. *)
Theorem blur_clamp_negative_origin (api : CanvasAPI) :
  let gesture := [LoadImage sampleImage; SelectTool blur; MouseDown 3 0] in
  let before := runRefactored api gesture in
  let after := stepRefactored api before (MouseLeave (-2) 2) in
  let after' := stepOriginal api (runOriginal api gesture) (MouseLeave (-2) 2) in
  safeRect (canvas before) (Qmin 3 (-2)) (Qmin 0 2) (Qabs (-2 - 3)) (Qabs (2 - 0))
  = (0, 0, 5, 2)%Z
  /\ channel (canvas before) 3 0 0 = 3%Z /\ channel (canvas after) 3 0 0 = 0%Z
  /\ channel (canvas before) 4 1 0 = 16%Z /\ channel (canvas after) 4 1 0 = 0%Z
  /\ channel (canvas after') 3 0 0 = 0%Z /\ channel (canvas after') 4 1 0 = 0%Z.
Proof.
  cbv zeta. split; [vm_compute; reflexivity |].
  split; [vm_compute; reflexivity |]. split; [vm_compute; reflexivity |].
  split; [vm_compute; reflexivity |]. split; [vm_compute; reflexivity |].
  split; vm_compute; reflexivity.
Qed.

(** C1, at failing inputs.  Original revision: after a blur commit, the
    [onload] of the rebased image and [undo], the store is back and the
    buffer is still pixelated.  Refactored revision: with a blur in the
    store committed at stroke width 3 (block size 8) and the stroke
    width then set to 10, a second blur commit followed by [undo]
    replays the first blur with block size 20: pixel (8, 0) changes. *)
Theorem blur_undo_divergence (api : CanvasAPI) :
  (let before := runOriginal api [LoadImage sampleImage; SelectTool blur] in
   let after :=
     fold_left (stepOriginal api) [MouseDown 0 0; MouseUp 10 2; ImageLoaded; Undo] before in
   annotations after = annotations before
   /\ channel (canvas before) 1 0 0 = 1%Z /\ channel (canvas after) 1 0 0 = 0%Z)
  /\ (let before :=
        runRefactored api
          [LoadImage sampleImage; SelectTool blur; MouseDown 0 0; MouseUp 10 2;
           SetStrokeWidth 10] in
      let after :=
        fold_left (stepRefactored api) [MouseDown 0 0; MouseUp 4 2; Undo] before in
      annotations after = annotations before
      /\ channel (canvas before) 8 0 0 = 8%Z /\ channel (canvas after) 8 0 0 = 0%Z).
Proof.
  cbv zeta. split.
  - split; [vm_compute; reflexivity |]. split; vm_compute; reflexivity.
  - split; [vm_compute; reflexivity |]. split; vm_compute; reflexivity.
Qed.

(** C9, at a failing input.  The original revision stores the trimmed
    text as typed; the refactored one stores its escaped form. *)
Theorem original_text_not_sanitized (api : CanvasAPI) :
  annotations
    (runOriginal api
       [LoadImage sampleImage; SelectTool text; MouseDown 1 1; SubmitText " <b>x</b> "])
  = [Label 1 1 "<b>x</b>" "#FF4D4F" 15]
  /\ sanitizeInput "<b>x</b>" = "&lt;b&gt;x&lt;/b&gt;"%string
  /\ annotations
       (runRefactored api
          [LoadImage sampleImage; SelectTool text; MouseDown 1 1; SubmitText " <b>x</b> "])
     = [Label 1 1 "&lt;b&gt;x&lt;/b&gt;" "#FF4D4F" 15].
Proof.
  split; [vm_compute; reflexivity |]. split; vm_compute; reflexivity.
Qed.

(** What the refactored revision stores holds no angle bracket. *)
Lemma sanitizeInput_no_angle (input : string) : hasAngle (sanitizeInput input) = false.
Proof.
  assert (forall n input, String.length input <= n ->
            hasAngle (sanitizeInput input) = false) as H.
  { induction n as [|n IH]; intros [|ch rest] Hlen; simpl in Hlen; try reflexivity;
      try lia.
    cbn [sanitizeInput]. cbv zeta.
    destruct (Nat.eqb_spec (nat_of_ascii ch) 38) as [E38 | E38];
      [simpl; apply IH; lia |].
    destruct (Nat.eqb_spec (nat_of_ascii ch) 60) as [E60 | E60];
      [simpl; apply IH; lia |].
    destruct (Nat.eqb_spec (nat_of_ascii ch) 62) as [E62 | E62];
      [simpl; apply IH; lia |].
    assert (forall rest', hasAngle rest' = false -> hasAngle (String ch rest') = false)
      as Hkeep.
    { intros rest' Hr. cbn [hasAngle]. rewrite Hr.
      rewrite (proj2 (Nat.eqb_neq _ _) E60), (proj2 (Nat.eqb_neq _ _) E62). reflexivity. }
    destruct rest as [|ch2 rest2].
    - apply Hkeep. reflexivity.
    - destruct ((nat_of_ascii ch =? 194) && (nat_of_ascii ch2 =? 160)).
      + simpl. apply IH. simpl in Hlen. lia.
      + apply Hkeep. apply IH. simpl in Hlen |- *. lia. }
  apply (H (String.length input)). lia.
Qed.


(** * Further properties *)

(** ** Pointer position and area selection *)














(** X4.  Whatever its outcome (too small, no captured image, crop that
    fails or succeeds), an area gesture that [finishAreaSelection]
    handles ends the selection mode: the drag flag and the selection
    flag are off and the captured image is released; and the store is
    either untouched or, when the crop is loaded, empty. *)
Theorem finishAreaSelection_ends_selection (api : CanvasAPI) (s : State)
    (endX endY : Q) :
  isDrawing s = true -> isSelectingArea s = true ->
  (let s' := Refactored.finishAreaSelection api endX endY s in
   isDrawing s' = false /\ isSelectingArea s' = false
   /\ capturedScreenImageObj s' = None
   /\ (annotations s' = annotations s \/ annotations s' = []))
  /\ (let s' := Original.finishAreaSelection api endX endY s in
      isDrawing s' = false /\ isSelectingArea s' = false
      /\ capturedScreenImageObj s' = None
      /\ (annotations s' = annotations s \/ annotations s' = [])).
Proof.
  intros Hd Hsel. split.
  - unfold Refactored.finishAreaSelection. rewrite Hd, Hsel. cbn [negb orb]. cbv zeta.
    destruct (Qltb (Qabs (endX - startX s)) 10 || Qltb (Qabs (endY - startY s)) 10).
    { repeat split; try reflexivity. left. reflexivity. }
    destruct (capturedScreenImageObj s) as [obj |].
    + destruct (api_crop api obj _ _ _ _).
      * repeat split; try reflexivity. right. reflexivity.
      * repeat split; try reflexivity. left. reflexivity.
    + repeat split; try reflexivity. left. reflexivity.
  - unfold Original.finishAreaSelection. rewrite Hd, Hsel. cbn [negb orb]. cbv zeta.
    destruct (Qltb (Qabs (endX - startX s)) 10 || Qltb (Qabs (endY - startY s)) 10).
    { repeat split; try reflexivity. left. reflexivity. }
    destruct (capturedScreenImageObj s) as [obj |].
    + destruct (api_crop api obj _ _ _ _).
      * repeat split; try reflexivity. right. reflexivity.
      * repeat split; try reflexivity. left. reflexivity.
    + repeat split; try reflexivity. left. reflexivity.
Qed.

Lemma finishAreaSelection_ends_selection_witness :
  let s := startAreaDrag 1 1
             (set_isSelectingArea true
                (overlayImageOnload 24 12 sampleImage initialState)) in
  isSelectingArea (Refactored.finishAreaSelection dotAPI 3 3 s) = false.
Proof.
  cbv zeta.
  destruct (finishAreaSelection_ends_selection dotAPI
              (startAreaDrag 1 1
                 (set_isSelectingArea true
                    (overlayImageOnload 24 12 sampleImage initialState))) 3 3)
    as ((_ & H & _) & _).
  - reflexivity.
  - reflexivity.
  - exact H.
Defined.

(** ** Text input *)

Lemma trimStart_allSpaces (s : string) : allSpaces s = true -> trimStart s = EmptyString.
Proof.
  induction s as [|ch rest IH]; [reflexivity |].
  cbn [allSpaces trimStart]. intros H. apply andb_true_iff in H as [H1 H2].
  rewrite H1. apply IH. exact H2.
Qed.

Lemma allSpaces_trimEnd (s : string) : trimEnd s = EmptyString -> allSpaces s = true.
Proof.
  induction s as [|ch rest IH]; [reflexivity |].
  cbn [allSpaces trimEnd]. destruct (trimEnd rest) as [|ch' rest'].
  - destruct (isSpace ch); [intros _; cbn [andb]; apply IH; reflexivity | discriminate].
  - discriminate.
Qed.

Lemma allSpaces_trimStart (s : string) :
  allSpaces (trimStart s) = true -> allSpaces s = true.
Proof.
  induction s as [|ch rest IH]; [reflexivity |].
  cbn [trimStart]. destruct (isSpace ch) eqn:E.
  - intros H. cbn [allSpaces]. rewrite E. cbn [andb]. apply IH. exact H.
  - cbn [allSpaces]. rewrite E. cbn [andb]. discriminate.
Qed.

Lemma nonEmpty_trim (s : string) : nonEmpty (trim s) = negb (allSpaces s).
Proof.
  destruct (allSpaces s) eqn:E.
  - unfold trim. rewrite trimStart_allSpaces by exact E. reflexivity.
  - destruct (trim s) eqn:T; [| reflexivity].
    rewrite (allSpaces_trimStart s (allSpaces_trimEnd _ T)) in E. discriminate.
Qed.

Lemma nonEmpty_sanitizeInput (s : string) : nonEmpty (sanitizeInput s) = nonEmpty s.
Proof.
  destruct s as [|ch rest]; [reflexivity |].
  cbn [sanitizeInput]. cbv zeta.
  destruct (nat_of_ascii ch =? 38); [reflexivity |].
  destruct (nat_of_ascii ch =? 60); [reflexivity |].
  destruct (nat_of_ascii ch =? 62); [reflexivity |].
  destruct rest as [|ch2 rest2]; [reflexivity |].
  destruct ((nat_of_ascii ch =? 194) && (nat_of_ascii ch2 =? 160)); reflexivity.
Qed.



Lemma submitTextModal_store_R (api : CanvasAPI) (value : string) (s : State) :
  allSpaces value = false ->
  annotations (Refactored.submitTextModal api value s)
  = annotations s ++
    [Label (tempTextX s) (tempTextY s) (sanitizeInput (trim value))
       (currentColor s) (strokeWidth s * 5)]
  /\ canUndo (Refactored.submitTextModal api value s) = true.
Proof.
  intros Hv.
  pose proof (nonEmpty_trim value) as Ht. rewrite Hv in Ht. cbn [negb] in Ht.
  pose proof (nonEmpty_sanitizeInput (trim value)) as Hs.
  unfold Refactored.submitTextModal. cbv zeta. rewrite Hs, Ht. cbn [negb].
  set (a := Label _ _ (sanitizeInput (trim value)) _ _).
  destruct (repainted_fields _ _
              (repainted_redrawCanvas_R api (set_annotations (annotations s ++ [a]) s)))
    as (_ & _ & _ & _ & _ & _ & Ha & _).
  split; [exact Ha |].
  unfold canUndo, updateUndoButton. cbn [undoBtn_disabled set_undoBtn_disabled].
  rewrite Ha. cbn [annotations set_annotations]. rewrite length_app. cbn [length].
  replace (length (annotations s) + 1 =? 0) with false
    by (symmetry; apply Nat.eqb_neq; lia).
  reflexivity.
Qed.





(** ** Undo *)

Lemma length_removelast_pred {A : Type} (l : list A) :
  length (removelast l) = pred (length l).
Proof.
  destruct l as [|a l]; [reflexivity |].
  destruct (exists_last (l := a :: l)) as (l' & b & E); [discriminate |].
  rewrite E, removelast_last, length_app. simpl. lia.
Qed.

Lemma undo_step_R (api : CanvasAPI) (s : State) :
  annotations s <> [] ->
  let s' := Refactored.undo api s in
  annotations s' = removelast (annotations s)
  /\ canvas s'
     = canvas (Refactored.redrawCanvas api
                 (set_annotations (removelast (annotations s)) s))
  /\ undoBtn_disabled s' = (length (removelast (annotations s)) =? 0)
  /\ baseImage s' = baseImage s /\ strokeWidth s' = strokeWidth s
  /\ img_width (canvas s') = img_width (canvas s)
  /\ img_height (canvas s') = img_height (canvas s)
  /\ lineDash (ctx s') = lineDash (ctx s).
Proof.
  intros Hne s'. subst s'. unfold Refactored.undo.
  destruct (Nat.eqb_spec (length (annotations s)) 0) as [E | _];
    [apply length_zero_iff_nil in E; contradiction |].
  cbv zeta.
  set (s1 := match last (annotations s) with
             | Some (Drag blur _ _ _ _ _ _ (Some originalImageData)) =>
                 set_canvas (putImageData originalImageData 0 0 (canvas s)) s
             | _ => s
             end).
  assert (repainted s s1) as H1.
  { unfold s1. destruct (last (annotations s)) as [[[] ? ? ? ? ? ? [img|] | ] | ];
      try apply repainted_refl.
    apply repainted_putImageData. }
  apply repainted_fields in H1.
  destruct H1 as (_ & _ & A3 & _ & _ & _ & A7 & A8 & _ & A10 & A11 & A12).
  rewrite A7.
  set (l := removelast (annotations s)).
  pose proof (repainted_redrawCanvas_R api (set_annotations l s1)) as H2.
  apply repainted_fields in H2.
  cbn [annotations baseImage strokeWidth canvas ctx set_annotations] in H2.
  destruct H2 as (_ & _ & B3 & _ & _ & _ & B7 & B8 & _ & B10 & B11 & B12).
  cbn [annotations baseImage strokeWidth canvas ctx undoBtn_disabled
       showNotification set_notification updateUndoButton set_undoBtn_disabled].
  split; [exact B7 |].
  split.
  { apply redrawCanvas_scene_R.
    repeat split; cbn [annotations baseImage strokeWidth canvas ctx set_annotations];
      assumption. }
  split; [rewrite B7; reflexivity |].
  repeat split; congruence.
Qed.

Lemma undo_step_O (api : CanvasAPI) (s : State) :
  annotations s <> [] ->
  let s' := Original.undo api s in
  annotations s' = removelast (annotations s)
  /\ canvas s'
     = canvas (Original.redrawCanvas api
                 (set_annotations (removelast (annotations s)) s))
  /\ undoBtn_disabled s' = (length (removelast (annotations s)) =? 0)
  /\ baseImage s' = baseImage s /\ strokeWidth s' = strokeWidth s
  /\ img_width (canvas s') = img_width (canvas s)
  /\ img_height (canvas s') = img_height (canvas s)
  /\ lineDash (ctx s') = lineDash (ctx s).
Proof.
  intros Hne s'. subst s'. unfold Original.undo.
  destruct (Nat.eqb_spec (length (annotations s)) 0) as [E | _];
    [apply length_zero_iff_nil in E; contradiction |].
  cbv zeta.
  set (l := removelast (annotations s)).
  pose proof (repainted_redrawCanvas_O api (set_annotations l s)) as H2.
  apply repainted_fields in H2.
  cbn [annotations baseImage strokeWidth canvas ctx set_annotations] in H2.
  destruct H2 as (_ & _ & B3 & _ & _ & _ & B7 & B8 & _ & B10 & B11 & B12).
  cbn [annotations baseImage strokeWidth canvas ctx undoBtn_disabled
       updateUndoButton set_undoBtn_disabled].
  split; [exact B7 |]. split; [reflexivity |].
  split; [rewrite B7; reflexivity |].
  repeat split; congruence.
Qed.

(** X8.  [undo] on a non-empty store removes the last annotation and
    leaves the recomposite of the remaining ones on the buffer, whatever
    the removed annotation was: the snapshot that a blur annotation
    carries is put on the canvas and then overwritten by the redraw, so
    it has no effect on the result.  The undo button stays enabled
    exactly when annotations remain. *)
Theorem undo_removes_last (api : CanvasAPI) (s : State) :
  annotations s <> [] ->
  (annotations (Refactored.undo api s) = removelast (annotations s)
   /\ canvas (Refactored.undo api s)
      = canvas (Refactored.redrawCanvas api
                  (set_annotations (removelast (annotations s)) s))
   /\ canUndo (Refactored.undo api s) = negb (length (annotations s) =? 1))
  /\ (annotations (Original.undo api s) = removelast (annotations s)
      /\ canvas (Original.undo api s)
         = canvas (Original.redrawCanvas api
                     (set_annotations (removelast (annotations s)) s))
      /\ canUndo (Original.undo api s) = negb (length (annotations s) =? 1)).
Proof.
  intros Hne.
  assert ((length (removelast (annotations s)) =? 0) = (length (annotations s) =? 1))
    as Hlen.
  { rewrite length_removelast_pred.
    destruct (annotations s) as [|a [|b l]]; [contradiction | reflexivity | reflexivity]. }
  destruct (undo_step_R api s Hne) as (R1 & R2 & R3 & _).
  destruct (undo_step_O api s Hne) as (O1 & O2 & O3 & _).
  unfold canUndo. rewrite R3, O3, Hlen. repeat split; assumption.
Qed.

Lemma undo_removes_last_witness :
  let s := runRefactored dotAPI
             [LoadImage sampleImage; SelectTool blur; MouseDown 0 0; MouseUp 10 2;
              SelectTool rect; MouseDown 1 1; MouseUp 4 2] in
  annotations (Refactored.undo dotAPI s) = removelast (annotations s)
  /\ canUndo (Refactored.undo dotAPI s) = true.
Proof.
  cbv zeta.
  destruct (undo_removes_last dotAPI
              (runRefactored dotAPI
                 [LoadImage sampleImage; SelectTool blur; MouseDown 0 0; MouseUp 10 2;
                  SelectTool rect; MouseDown 1 1; MouseUp 4 2]))
    as ((H1 & _ & H3) & _).
  - vm_compute. discriminate.
  - split; [exact H1 |]. rewrite H3. vm_compute. reflexivity.
Defined.

Lemma canvas_clearAnnotations_R (api : CanvasAPI) (s : State) :
  canvas (Refactored.clearAnnotations api s)
  = canvas (Refactored.redrawCanvas api (set_annotations [] s)).
Proof. reflexivity. Qed.

Lemma canvas_clearAnnotations_O (api : CanvasAPI) (s : State) :
  canvas (Original.clearAnnotations api s)
  = canvas (Original.redrawCanvas api (set_annotations [] s)).
Proof. reflexivity. Qed.

Lemma undo_iter_R (api : CanvasAPI) (n : nat) :
  forall s, length (annotations s) = S n ->
    let s' := Nat.iter (S n) (Refactored.undo api) s in
    annotations s' = [] /\ undoBtn_disabled s' = true
    /\ canvas s' = canvas (Refactored.clearAnnotations api s).
Proof.
  induction n as [|n IH]; intros s Hlen.
  - assert (annotations s <> []) as Hne by (intros E; rewrite E in Hlen; discriminate).
    destruct (undo_step_R api s Hne) as (A & C & U & _).
    assert (removelast (annotations s) = []) as Hl.
    { apply length_zero_iff_nil. rewrite length_removelast_pred, Hlen. reflexivity. }
    cbn [Nat.iter nat_rect]. rewrite A, C, U, Hl, canvas_clearAnnotations_R.
    repeat split.
  - assert (annotations s <> []) as Hne by (intros E; rewrite E in Hlen; discriminate).
    destruct (undo_step_R api s Hne) as (A & _ & _ & B & W & Cw & Ch & D).
    assert (length (annotations (Refactored.undo api s)) = S n) as Hlen'
      by (rewrite A, length_removelast_pred, Hlen; reflexivity).
    specialize (IH _ Hlen'). cbv zeta in IH |- *.
    rewrite Nat.iter_succ_r.
    destruct IH as (I1 & I2 & I3).
    split; [exact I1 |]. split; [exact I2 |].
    rewrite I3, !canvas_clearAnnotations_R. apply redrawCanvas_scene_R.
    repeat split; cbn [annotations baseImage strokeWidth canvas ctx set_annotations];
      assumption.
Qed.

Lemma undo_iter_O (api : CanvasAPI) (n : nat) :
  forall s, length (annotations s) = S n ->
    let s' := Nat.iter (S n) (Original.undo api) s in
    annotations s' = [] /\ undoBtn_disabled s' = true
    /\ canvas s' = canvas (Original.clearAnnotations api s).
Proof.
  induction n as [|n IH]; intros s Hlen.
  - assert (annotations s <> []) as Hne by (intros E; rewrite E in Hlen; discriminate).
    destruct (undo_step_O api s Hne) as (A & C & U & _).
    assert (removelast (annotations s) = []) as Hl.
    { apply length_zero_iff_nil. rewrite length_removelast_pred, Hlen. reflexivity. }
    cbn [Nat.iter nat_rect]. rewrite A, C, U, Hl, canvas_clearAnnotations_O.
    repeat split.
  - assert (annotations s <> []) as Hne by (intros E; rewrite E in Hlen; discriminate).
    destruct (undo_step_O api s Hne) as (A & _ & _ & B & W & Cw & Ch & D).
    assert (length (annotations (Original.undo api s)) = S n) as Hlen'
      by (rewrite A, length_removelast_pred, Hlen; reflexivity).
    specialize (IH _ Hlen'). cbv zeta in IH |- *.
    rewrite Nat.iter_succ_r.
    destruct IH as (I1 & I2 & I3).
    split; [exact I1 |]. split; [exact I2 |].
    rewrite I3, !canvas_clearAnnotations_O. apply redrawCanvas_scene_O.
    repeat split; cbn [annotations baseImage strokeWidth canvas ctx set_annotations];
      assumption.
Qed.

(** X9.  Undoing as many times as the store has annotations empties the
    store, disables the undo button and leaves the buffer that
    [clearAnnotations] gives at once: the base image alone.  Holds in
    both revisions. *)
Theorem undo_all_is_clear (api : CanvasAPI) (s : State) :
  annotations s <> [] ->
  let n := length (annotations s) in
  (annotations (Nat.iter n (Refactored.undo api) s) = []
   /\ canUndo (Nat.iter n (Refactored.undo api) s) = false
   /\ canvas (Nat.iter n (Refactored.undo api) s)
      = canvas (Refactored.clearAnnotations api s))
  /\ (annotations (Nat.iter n (Original.undo api) s) = []
      /\ canUndo (Nat.iter n (Original.undo api) s) = false
      /\ canvas (Nat.iter n (Original.undo api) s)
         = canvas (Original.clearAnnotations api s)).
Proof.
  intros Hne n.
  destruct (length (annotations s)) as [|m] eqn:Hlen.
  { apply length_zero_iff_nil in Hlen. contradiction. }
  subst n.
  destruct (undo_iter_R api m s Hlen) as (R1 & R2 & R3).
  destruct (undo_iter_O api m s Hlen) as (O1 & O2 & O3).
  unfold canUndo. rewrite R2, O2. repeat split; assumption.
Qed.

Lemma undo_all_is_clear_witness :
  let s := runRefactored dotAPI
             [LoadImage sampleImage; SelectTool blur; MouseDown 0 0; MouseUp 10 2;
              SelectTool rect; MouseDown 1 1; MouseUp 4 2] in
  canvas (Nat.iter (length (annotations s)) (Refactored.undo dotAPI) s)
  = canvas (Refactored.clearAnnotations dotAPI s)
  /\ length (annotations s) = 2.
Proof.
  cbv zeta.
  destruct (undo_all_is_clear dotAPI
              (runRefactored dotAPI
                 [LoadImage sampleImage; SelectTool blur; MouseDown 0 0; MouseUp 10 2;
                  SelectTool rect; MouseDown 1 1; MouseUp 4 2]))
    as ((_ & _ & H) & _).
  - vm_compute. discriminate.
  - split; [exact H | vm_compute; reflexivity].
Defined.

(** ** The undo button *)

Lemma redrawn_draw_O (api : CanvasAPI) (x y : Q) (s : State) :
  redrawn s (Original.draw api x y s).
Proof.
  unfold Original.draw.
  destruct (negb (isDrawing s)); [apply redrawn_refl |]. cbv zeta.
  eapply redrawn_trans.
  { apply repainted_redrawn. eapply repainted_trans;
      [apply repainted_redrawCanvas_O | apply repainted_setStyle]. }
  destruct (currentTool (setStyle _ _ _ _)).
  - apply repainted_redrawn, repainted_drawArrow.
  - apply repainted_redrawn, repainted_drawRect.
  - apply repainted_redrawn, repainted_drawCircle.
  - apply repainted_redrawn, repainted_drawHighlight.
  - apply redrawn_drawBlurPreview.
  - apply redrawn_refl.
Qed.

Lemma undoButtonInSync_redrawn (s s' : State) :
  redrawn s s' -> undoButtonInSync s -> undoButtonInSync s'.
Proof.
  intros (b & c & ->) H. exact H.
Qed.

Lemma undoButtonInSync_update (s : State) : undoButtonInSync (updateUndoButton s).
Proof. reflexivity. Qed.

Lemma undoButtonInSync_load (img : ImageData) (s : State) :
  undoButtonInSync (loadImageToEditor img s).
Proof. unfold loadImageToEditor. cbv zeta. apply undoButtonInSync_update. Qed.

Lemma undoButtonInSync_same (s s' : State) :
  annotations s' = annotations s -> undoBtn_disabled s' = undoBtn_disabled s ->
  undoButtonInSync s -> undoButtonInSync s'.
Proof.
  unfold undoButtonInSync. intros -> ->. exact (fun H => H).
Qed.

Lemma undoButtonInSync_notify (m : string) (t : NotificationType) (s : State) :
  undoButtonInSync s -> undoButtonInSync (showNotification m t s).
Proof. exact (fun H => H). Qed.

Lemma undoButtonInSync_finish (s : State) :
  undoButtonInSync s -> undoButtonInSync (set_isDrawing false (cancelAreaSelection s)).
Proof. exact (fun H => H). Qed.

Lemma undoButtonInSync_step_R (api : CanvasAPI) (s : State) (e : Event) :
  isBackToCapture e = false ->
  undoButtonInSync s -> undoButtonInSync (stepRefactored api s e).
Proof.
  intros He H.
  destruct e as [img | tool | color | n | x y | x y | x y | x y | value
                 | | | x y | x y | | ]; cbn [stepRefactored].
  - apply undoButtonInSync_load.
  - exact H.
  - exact H.
  - exact H.
  - unfold Refactored.startDrawing. cbv zeta.
    destruct (currentTool _); exact H.
  - exact (undoButtonInSync_redrawn _ _ (redrawn_draw_R api x y s) H).
  - unfold Refactored.stopDrawing.
    destruct (negb (isDrawing s)); [exact H |]. cbv zeta. apply undoButtonInSync_update.
  - unfold Refactored.stopDrawing.
    destruct (negb (isDrawing s)); [exact H |]. cbv zeta. apply undoButtonInSync_update.
  - unfold Refactored.submitTextModal. cbv zeta.
    destruct (negb (nonEmpty (sanitizeInput (trim value)))); [exact H |].
    apply undoButtonInSync_update.
  - unfold Refactored.undo.
    destruct (length (annotations s) =? 0); [exact H |]. cbv zeta.
    apply undoButtonInSync_notify, undoButtonInSync_update.
  - unfold Refactored.clearAnnotations. cbv zeta.
    apply undoButtonInSync_notify, undoButtonInSync_update.
  - unfold startAreaDrag. destruct (negb (isSelectingArea s)); exact H.
  - unfold Refactored.finishAreaSelection.
    destruct (negb (isDrawing s) || negb (isSelectingArea s)); [exact H |]. cbv zeta.
    destruct (Qltb _ 10 || Qltb _ 10); [exact H |].
    destruct (capturedScreenImageObj s); [| exact H].
    apply undoButtonInSync_finish, undoButtonInSync_notify.
    destruct (api_crop api _ _ _ _ _); [apply undoButtonInSync_load | exact H].
  - discriminate He.
  - exact H.
Qed.

Lemma undoButtonInSync_step_O (api : CanvasAPI) (s : State) (e : Event) :
  isBackToCapture e = false ->
  undoButtonInSync s -> undoButtonInSync (stepOriginal api s e).
Proof.
  intros He H.
  destruct e as [img | tool | color | n | x y | x y | x y | x y | value
                 | | | x y | x y | | ]; cbn [stepOriginal].
  - apply undoButtonInSync_load.
  - exact H.
  - exact H.
  - exact H.
  - unfold Original.startDrawing. cbv zeta.
    destruct (currentTool _); exact H.
  - exact (undoButtonInSync_redrawn _ _ (redrawn_draw_O api x y s) H).
  - unfold Original.stopDrawing.
    destruct (negb (isDrawing s)); [exact H |]. cbv zeta. apply undoButtonInSync_update.
  - unfold Original.stopDrawing.
    destruct (negb (isDrawing s)); [exact H |]. cbv zeta. apply undoButtonInSync_update.
  - unfold Original.submitTextModal. cbv zeta.
    destruct (negb (nonEmpty (trim value))); [exact H |].
    apply undoButtonInSync_update.
  - unfold Original.undo.
    destruct (length (annotations s) =? 0); [exact H |]. cbv zeta.
    apply undoButtonInSync_update.
  - unfold Original.clearAnnotations. cbv zeta.
    apply undoButtonInSync_update.
  - unfold startAreaDrag. destruct (negb (isSelectingArea s)); exact H.
  - unfold Original.finishAreaSelection.
    destruct (negb (isDrawing s) || negb (isSelectingArea s)); [exact H |]. cbv zeta.
    destruct (Qltb _ 10 || Qltb _ 10); [exact H |].
    destruct (capturedScreenImageObj s); [| exact H].
    apply undoButtonInSync_finish, undoButtonInSync_notify.
    destruct (api_crop api _ _ _ _ _); [apply undoButtonInSync_load | exact H].
  - discriminate He.
  - unfold Original.imageOnload. destruct (pendingBaseImage s); exact H.
Qed.

(** X10.  From the moment an image is loaded, and as long as the editor
    is not left by [backToCapture], the undo button is disabled exactly
    when the store is empty, whatever the user does, in both revisions.
    ([backToCapture] empties the store without updating the button.) *)
Theorem undo_button_in_sync (api : CanvasAPI) (before after : list Event)
    (img : ImageData) :
  forallb (fun e => negb (isBackToCapture e)) after = true ->
  undoButtonInSync (runRefactored api (before ++ LoadImage img :: after))
  /\ undoButtonInSync (runOriginal api (before ++ LoadImage img :: after)).
Proof.
  intros Hafter. unfold runRefactored, runOriginal.
  rewrite !fold_left_app. cbn [fold_left stepRefactored stepOriginal].
  set (sR := fold_left (stepRefactored api) before initialState).
  set (sO := fold_left (stepOriginal api) before initialState).
  clearbody sR sO.
  pose proof (undoButtonInSync_load img sR) as HR.
  pose proof (undoButtonInSync_load img sO) as HO.
  revert HR HO. generalize (loadImageToEditor img sR), (loadImageToEditor img sO).
  induction after as [|e after IH]; intros s1 s2 H1 H2; [split; assumption |].
  cbn [forallb] in Hafter. apply andb_true_iff in Hafter as [He Hafter].
  apply negb_true_iff in He. cbn [fold_left].
  apply IH; [exact Hafter | |].
  - apply undoButtonInSync_step_R; assumption.
  - apply undoButtonInSync_step_O; assumption.
Qed.

Lemma undo_button_in_sync_witness :
  undoButtonInSync
    (runRefactored dotAPI
       ([BackToCapture] ++ LoadImage sampleImage ::
        [MouseDown 1 1; MouseMove 3 1; MouseUp 4 2; Undo])).
Proof.
  destruct (undo_button_in_sync dotAPI [BackToCapture]
              [MouseDown 1 1; MouseMove 3 1; MouseUp 4 2; Undo] sampleImage) as [H _].
  - reflexivity.
  - exact H.
Defined.

(** ** The blur on any rectangle *)

Lemma Qfloor_ge_1 (w : Q) : (1 <= w)%Q -> (1 <= Qfloor w)%Z.
Proof.
  intros H. change 1%Z with (Qfloor (inject_Z 1)) at 1. apply Qfloor_resp_le. exact H.
Qed.

(** The clamped rectangle lies on the surface. *)
Lemma safeRect_inside (c : ImageData) (x y w h : Q) :
  let r := safeRect c x y w h in
  (0 <= fst (fst (fst r)))%Z /\ (0 <= snd (fst (fst r)))%Z
  /\ (fst (fst (fst r)) + snd (fst r) <= Z.of_nat (img_width c))%Z
  /\ (snd (fst (fst r)) + snd r <= Z.of_nat (img_height c))%Z.
Proof.
  unfold safeRect. cbn [fst snd]. rewrite !Qfloor_Qmin_Z. lia.
Qed.

(** On a surface that is not empty the clamped rectangle of a request
    at least one pixel wide and high has at least one pixel. *)
Lemma safeRect_nonempty (c : ImageData) (x y w h : Q) :
  0 < img_width c -> 0 < img_height c -> (1 <= w)%Q -> (1 <= h)%Q ->
  let r := safeRect c x y w h in
  (1 <= snd (fst r))%Z /\ (1 <= snd r)%Z.
Proof.
  intros HW HH Hw Hh. unfold safeRect. cbn [fst snd]. rewrite !Qfloor_Qmin_Z.
  apply Qfloor_ge_1 in Hw, Hh. lia.
Qed.

Lemma applyBlurEffect_guarded (x y w h : Q) (s : State) :
  let r := safeRect (canvas s) x y w h in
  Refactored.applyBlurEffect x y w h s =
  if Qltb w 1 || Qltb h 1 then s
  else if (snd (fst r) <? 1)%Z || (snd r <? 1)%Z then s
  else set_canvas
         (blurred s (Z.to_nat (fst (fst (fst r)))) (Z.to_nat (snd (fst (fst r))))
            (Z.to_nat (snd (fst r))) (Z.to_nat (snd r))) s.
Proof.
  cbv zeta. unfold Refactored.applyBlurEffect.
  destruct (Qltb w 1 || Qltb h 1); [reflexivity |].
  destruct (safeRect (canvas s) x y w h) as [[[safeX safeY] safeWidth] safeHeight].
  cbn [fst snd]. destruct ((safeWidth <? 1)%Z || (safeHeight <? 1)%Z); reflexivity.
Qed.

Lemma applyBlurEffect_any (x y w h : Q) (s : State) :
  0 < img_width (canvas s) -> 0 < img_height (canvas s) ->
  (1 <= w)%Q -> (1 <= h)%Q ->
  let r := safeRect (canvas s) x y w h in
  Refactored.applyBlurEffect x y w h s =
  set_canvas
    (blurred s (Z.to_nat (fst (fst (fst r)))) (Z.to_nat (snd (fst (fst r))))
       (Z.to_nat (snd (fst r))) (Z.to_nat (snd r))) s.
Proof.
  intros HW HH Hw Hh r. rewrite applyBlurEffect_guarded. fold r.
  destruct (safeRect_nonempty (canvas s) x y w h HW HH Hw Hh) as [H1 H2]. fold r in H1, H2.
  apply Qltb_ge in Hw, Hh. rewrite Hw, Hh. cbn [orb].
  destruct (Z.ltb_spec (snd (fst r)) 1); [lia |].
  destruct (Z.ltb_spec (snd r) 1); [lia |]. reflexivity.
Qed.

(** X11.  [applyBlurEffect] on any rectangle, whole pixels or not, on
    the surface or beyond it: for a request at least one pixel wide and
    high on a non-empty well-formed bitmap, the rectangle is clamped to
    one that lies on the surface and holds at least one pixel, only the
    bitmap changes and keeps its size, every pixel of the clamped
    rectangle takes the colour of the top-left pixel of its block, and
    every pixel outside keeps its colour. *)
Theorem blur_any_rectangle (s : State) (x y w h : Q) :
  wf_image (canvas s) ->
  0 < img_width (canvas s) -> 0 < img_height (canvas s) ->
  (1 <= w)%Q -> (1 <= h)%Q ->
  let r := safeRect (canvas s) x y w h in
  let safeX := Z.to_nat (fst (fst (fst r))) in
  let safeY := Z.to_nat (snd (fst (fst r))) in
  let safeWidth := Z.to_nat (snd (fst r)) in
  let safeHeight := Z.to_nat (snd r) in
  let p := Z.to_nat (Z.max 8 (Z.pos (strokeWidth s) * 2)) in
  let s' := Refactored.applyBlurEffect x y w h s in
  (1 <= safeWidth /\ 1 <= safeHeight
   /\ safeX + safeWidth <= img_width (canvas s)
   /\ safeY + safeHeight <= img_height (canvas s))
  /\ s' = set_canvas (canvas s') s
  /\ img_width (canvas s') = img_width (canvas s)
  /\ img_height (canvas s') = img_height (canvas s)
  /\ wf_image (canvas s')
  /\ forall cx cy k,
       cx < img_width (canvas s) -> cy < img_height (canvas s) -> k < 4 ->
       channel (canvas s') cx cy k =
       if (safeX <=? cx) && (cx <? safeX + safeWidth)
          && (safeY <=? cy) && (cy <? safeY + safeHeight)
       then channel (canvas s)
              (safeX + (cx - safeX) / p * p) (safeY + (cy - safeY) / p * p) k
       else channel (canvas s) cx cy k.
Proof.
  intros Hwf HW HH Hw Hh r safeX safeY safeWidth safeHeight p s'.
  destruct (safeRect_inside (canvas s) x y w h) as (I1 & I2 & I3 & I4).
  destruct (safeRect_nonempty (canvas s) x y w h HW HH Hw Hh) as (N1 & N2).
  fold r in I1, I2, I3, I4, N1, N2.
  assert (1 <= safeWidth /\ 1 <= safeHeight
          /\ safeX + safeWidth <= img_width (canvas s)
          /\ safeY + safeHeight <= img_height (canvas s)) as Hin
    by (unfold safeX, safeY, safeWidth, safeHeight; lia).
  split; [exact Hin |].
  assert (s' = set_canvas (blurred s safeX safeY safeWidth safeHeight) s) as Hs'
    by (apply applyBlurEffect_any; assumption).
  rewrite Hs'. cbn [canvas set_canvas].
  split; [reflexivity |]. split; [reflexivity |]. split; [reflexivity |].
  split; [apply wf_putImageData; exact Hwf |].
  intros cx cy k Hcx Hcy Hk. apply channel_blurred; try assumption; lia.
Qed.

Lemma blur_any_rectangle_witness :
  let s := loadImageToEditor sampleImage initialState in
  channel (canvas (Refactored.applyBlurEffect (-(3 # 2)) (1 # 2) (27 # 2) 7 s)) 11 2 0
  = channel (canvas s) 8 0 0.
Proof.
  cbv zeta.
  destruct (blur_any_rectangle (loadImageToEditor sampleImage initialState)
              (-(3 # 2)) (1 # 2) (27 # 2) 7) as (_ & _ & _ & _ & _ & H).
  - vm_compute. reflexivity.
  - vm_compute. lia.
  - vm_compute. lia.
  - vm_compute. discriminate.
  - vm_compute. discriminate.
  - rewrite (H 11 2 0) by (vm_compute; lia). vm_compute. reflexivity.
Defined.

Lemma set_canvas_twice (c c' : ImageData) (s : State) :
  set_canvas c (set_canvas c' s) = set_canvas c s.
Proof. reflexivity. Qed.

Lemma block_origin_fixed (p a : nat) : 0 < p -> (a / p * p) / p * p = a / p * p.
Proof.
  intros Hp. rewrite Nat.div_mul by lia. reflexivity.
Qed.

(** X12.  [applyBlurEffect] is idempotent: pixelating the same rectangle
    a second time, under the same stroke width, changes nothing,
    whatever the rectangle. *)
Theorem blur_idempotent (s : State) (x y w h : Q) :
  wf_image (canvas s) ->
  Refactored.applyBlurEffect x y w h (Refactored.applyBlurEffect x y w h s)
  = Refactored.applyBlurEffect x y w h s.
Proof.
  intros Hwf.
  pose proof (applyBlurEffect_guarded x y w h s) as H1. cbv zeta in H1.
  destruct (safeRect_inside (canvas s) x y w h) as (I1 & I2 & I3 & I4).
  set (r := safeRect (canvas s) x y w h) in *.
  destruct (Qltb w 1 || Qltb h 1) eqn:G1; [rewrite H1, H1; reflexivity |].
  destruct ((snd (fst r) <? 1)%Z || (snd r <? 1)%Z) eqn:G2;
    [rewrite H1, H1; reflexivity |].
  apply orb_false_iff in G2 as [G2 G3].
  apply Z.ltb_ge in G2, G3.
  set (X := Z.to_nat (fst (fst (fst r)))) in *.
  set (Y := Z.to_nat (snd (fst (fst r)))) in *.
  set (Wd := Z.to_nat (snd (fst r))) in *.
  set (Ht := Z.to_nat (snd r)) in *.
  assert (X + Wd <= img_width (canvas s)) as Bx by (unfold X, Wd; lia).
  assert (Y + Ht <= img_height (canvas s)) as By by (unfold Y, Ht; lia).
  rewrite H1.
  set (s1 := set_canvas (blurred s X Y Wd Ht) s).
  pose proof (applyBlurEffect_guarded x y w h s1) as H2. cbv zeta in H2.
  assert (safeRect (canvas s1) x y w h = r) as Hr by reflexivity.
  rewrite Hr in H2. rewrite G1 in H2.
  rewrite (proj2 (Z.ltb_ge _ _) G2), (proj2 (Z.ltb_ge _ _) G3) in H2. cbn [orb] in H2.
  fold X Y Wd Ht in H2. rewrite H2. unfold s1 at 2. rewrite set_canvas_twice.
  unfold s1 at 2. f_equal.
  assert (wf_image (canvas s1)) as Hwf1 by (apply wf_putImageData; exact Hwf).
  apply image_ext; try reflexivity.
  - apply wf_putImageData. exact Hwf1.
  - apply wf_putImageData. exact Hwf.
  - intros cx cy k Hcx Hcy Hk.
    change (img_width (blurred s1 X Y Wd Ht)) with (img_width (canvas s)) in Hcx.
    change (img_height (blurred s1 X Y Wd Ht)) with (img_height (canvas s)) in Hcy.
    rewrite (channel_blurred s1 X Y Wd Ht cx cy k Hwf1 Bx By Hcx Hcy Hk).
    change (canvas s1) with (blurred s X Y Wd Ht).
    change (pixelSizeOf s1) with (pixelSizeOf s).
    pose proof (pixelSizeOf_pos s) as Hp. set (p := pixelSizeOf s) in *.
    destruct ((X <=? cx) && (cx <? X + Wd) && (Y <=? cy) && (cy <? Y + Ht)) eqn:E;
      [| reflexivity].
    pose proof E as E'.
    apply andb_prop in E' as [E' E4]. apply andb_prop in E' as [E' E3].
    apply andb_prop in E' as [E1 E2].
    apply Nat.leb_le in E1, E3. apply Nat.ltb_lt in E2, E4.
    pose proof (div_mul_le p Hp (cx - X)) as Dx.
    pose proof (div_mul_le p Hp (cy - Y)) as Dy.
    rewrite (channel_blurred s X Y Wd Ht cx cy k Hwf Bx By Hcx Hcy Hk). fold p. rewrite E.
    rewrite (channel_blurred s X Y Wd Ht _ _ k Hwf Bx By) by lia. fold p.
    replace ((X <=? X + (cx - X) / p * p) && (X + (cx - X) / p * p <? X + Wd)
             && (Y <=? Y + (cy - Y) / p * p) && (Y + (cy - Y) / p * p <? Y + Ht))
      with true.
    2:{ symmetry. rewrite !andb_true_iff, !Nat.leb_le, !Nat.ltb_lt. lia. }
    replace (X + (cx - X) / p * p - X) with ((cx - X) / p * p) by lia.
    replace (Y + (cy - Y) / p * p - Y) with ((cy - Y) / p * p) by lia.
    rewrite !block_origin_fixed by exact Hp. reflexivity.
Qed.

Lemma blur_idempotent_witness :
  let s := loadImageToEditor sampleImage initialState in
  Refactored.applyBlurEffect 1 0 10 3 (Refactored.applyBlurEffect 1 0 10 3 s)
  = Refactored.applyBlurEffect 1 0 10 3 s.
Proof.
  apply (blur_idempotent (loadImageToEditor sampleImage initialState) 1 0 10 3).
  vm_compute. reflexivity.
Defined.

(** ** Gestures *)

Lemma stopDrawing_idle_R (x y : Q) (s : State) :
  isDrawing s = false -> Refactored.stopDrawing x y s = s.
Proof. intros H. unfold Refactored.stopDrawing. rewrite H. reflexivity. Qed.

Lemma stopDrawing_idle_O (x y : Q) (s : State) :
  isDrawing s = false -> Original.stopDrawing x y s = s.
Proof. intros H. unfold Original.stopDrawing. rewrite H. reflexivity. Qed.

Lemma draw_idle_R (api : CanvasAPI) (x y : Q) (s : State) :
  isDrawing s = false -> Refactored.draw api x y s = s.
Proof. intros H. unfold Refactored.draw. rewrite H. reflexivity. Qed.

Lemma draw_idle_O (api : CanvasAPI) (x y : Q) (s : State) :
  isDrawing s = false -> Original.draw api x y s = s.
Proof. intros H. unfold Original.draw. rewrite H. reflexivity. Qed.

Lemma isDrawing_stopDrawing_R (x y : Q) (s : State) :
  isDrawing (Refactored.stopDrawing x y s) = false.
Proof.
  unfold Refactored.stopDrawing. destruct (isDrawing s) eqn:E; cbn [negb]; [| exact E].
  cbv zeta.
  match goal with |- isDrawing (updateUndoButton (set_tempBlurBackup None
                                  (set_isDrawing false ?X))) = false =>
    generalize X end.
  intros X. reflexivity.
Qed.

Lemma isDrawing_stopDrawing_O (x y : Q) (s : State) :
  isDrawing (Original.stopDrawing x y s) = false.
Proof.
  unfold Original.stopDrawing. destruct (isDrawing s) eqn:E; cbn [negb]; [| exact E].
  cbv zeta.
  match goal with |- isDrawing (updateUndoButton (set_isDrawing false ?X)) = false =>
    generalize X end.
  intros X. reflexivity.
Qed.

(** X13.  A gesture is committed once: after [stopDrawing] has run, a
    second release (the [mouseleave] that follows a [mouseup]) and any
    pointer move change nothing until the next pointer-down, in both
    revisions. *)
Theorem release_once (api : CanvasAPI) (x y x' y' : Q) (s : State) :
  (Refactored.stopDrawing x' y' (Refactored.stopDrawing x y s)
   = Refactored.stopDrawing x y s
   /\ Refactored.draw api x' y' (Refactored.stopDrawing x y s)
      = Refactored.stopDrawing x y s)
  /\ (Original.stopDrawing x' y' (Original.stopDrawing x y s)
      = Original.stopDrawing x y s
      /\ Original.draw api x' y' (Original.stopDrawing x y s)
         = Original.stopDrawing x y s).
Proof.
  split; split.
  - apply stopDrawing_idle_R, isDrawing_stopDrawing_R.
  - apply draw_idle_R, isDrawing_stopDrawing_R.
  - apply stopDrawing_idle_O, isDrawing_stopDrawing_O.
  - apply draw_idle_O, isDrawing_stopDrawing_O.
Qed.

(** ** Loading an image *)



(** ** Previews *)

Lemma drawBlurPreview_canvas (api : CanvasAPI) (x1 y1 x2 y2 : Q) (s : State) :
  canvas (drawBlurPreview api x1 y1 x2 y2 s)
  = repaint
      (repaint (canvas s)
         (api_fillRect api "rgba(150, 150, 150, 0.5)" x1 y1 (x2 - x1) (y2 - y1)))
      (api_strokeRect api
         (mkPen "#999999" 2 (lineCap (ctx s)) (lineJoin (ctx s)) [5; 5]%Z)
         x1 y1 (x2 - x1) (y2 - y1)).
Proof.
  destruct s as [? ? ? ? ? ? ? ? c [? ? ? ? ? ? ?] ? ? ? ? ? ? ? ? ? ?]. reflexivity.
Qed.

(** What the tail of [draw], after the recomposite, reads. *)
Lemma draw_tail_canvas (api : CanvasAPI) (x y : Q) (F1 F2 : State) :
  canvas F1 = canvas F2 -> lineDash (ctx F1) = lineDash (ctx F2) ->
  currentTool F1 = currentTool F2 -> currentColor F1 = currentColor F2 ->
  strokeWidth F1 = strokeWidth F2 -> startX F1 = startX F2 -> startY F1 = startY F2 ->
  canvas
    (let s := setStyle (currentTool F1) (currentColor F1) (Some (strokeWidth F1)) F1 in
     match currentTool s with
     | arrow => drawArrow api (startX s) (startY s) x y s
     | rect => drawRect api (startX s) (startY s) x y s
     | circle => drawCircle api (startX s) (startY s) x y s
     | highlight => drawHighlight api (startX s) (startY s) x y s
     | blur => drawBlurPreview api (startX s) (startY s) x y s
     | text => s
     end)
  = canvas
      (let s := setStyle (currentTool F2) (currentColor F2) (Some (strokeWidth F2)) F2 in
       match currentTool s with
       | arrow => drawArrow api (startX s) (startY s) x y s
       | rect => drawRect api (startX s) (startY s) x y s
       | circle => drawCircle api (startX s) (startY s) x y s
       | highlight => drawHighlight api (startX s) (startY s) x y s
       | blur => drawBlurPreview api (startX s) (startY s) x y s
       | text => s
       end).
Proof.
  intros Hc Hd Ht Hcol Hw Hx Hy. cbv zeta. rewrite !setStyle_Some.
  cbn [currentTool startX startY set_ctx]. rewrite Ht, Hcol, Hw, Hx, Hy.
  destruct (currentTool F2).
  - unfold drawArrow, penOf.
    cbn [canvas ctx set_canvas set_ctx strokeStyle lineWidth lineCap lineJoin lineDash].
    rewrite Hc, Hd. reflexivity.
  - unfold drawRect, penOf.
    cbn [canvas ctx set_canvas set_ctx strokeStyle lineWidth lineCap lineJoin lineDash].
    rewrite Hc, Hd. reflexivity.
  - unfold drawCircle, penOf.
    cbn [canvas ctx set_canvas set_ctx strokeStyle lineWidth lineCap lineJoin lineDash].
    rewrite Hc, Hd. reflexivity.
  - unfold drawHighlight.
    cbn [canvas ctx set_canvas set_ctx fillStyle].
    rewrite Hc. reflexivity.
  - rewrite !drawBlurPreview_canvas. cbn [canvas ctx set_ctx lineCap lineJoin].
    rewrite Hc. reflexivity.
  - cbn [canvas set_ctx]. exact Hc.
Qed.

Lemma draw_canvas_R (api : CanvasAPI) (x y : Q) (s1 s2 : State) :
  isDrawing s1 = true -> isDrawing s2 = true -> sameScene s1 s2 ->
  currentTool s1 = currentTool s2 -> currentColor s1 = currentColor s2 ->
  startX s1 = startX s2 -> startY s1 = startY s2 ->
  canvas (Refactored.draw api x y s1) = canvas (Refactored.draw api x y s2).
Proof.
  intros Hd1 Hd2 Hsc Ht Hcol Hx Hy. unfold Refactored.draw. rewrite Hd1, Hd2. cbn [negb].
  pose proof (redrawCanvas_scene_R api s1 s2 Hsc) as Hc.
  destruct Hsc as (_ & _ & Hw & _ & _ & Hdash).
  pose proof (repainted_fields _ _ (repainted_redrawCanvas_R api s1))
    as (A1 & A2 & A3 & _ & A5 & A6 & _ & _ & _ & _ & _ & A12).
  pose proof (repainted_fields _ _ (repainted_redrawCanvas_R api s2))
    as (B1 & B2 & B3 & _ & B5 & B6 & _ & _ & _ & _ & _ & B12).
  apply draw_tail_canvas; congruence.
Qed.

Lemma draw_canvas_O (api : CanvasAPI) (x y : Q) (s1 s2 : State) :
  isDrawing s1 = true -> isDrawing s2 = true -> sameScene s1 s2 ->
  currentTool s1 = currentTool s2 -> currentColor s1 = currentColor s2 ->
  startX s1 = startX s2 -> startY s1 = startY s2 ->
  canvas (Original.draw api x y s1) = canvas (Original.draw api x y s2).
Proof.
  intros Hd1 Hd2 Hsc Ht Hcol Hx Hy. unfold Original.draw. rewrite Hd1, Hd2. cbn [negb].
  pose proof (redrawCanvas_scene_O api s1 s2 Hsc) as Hc.
  destruct Hsc as (_ & _ & Hw & _ & _ & Hdash).
  pose proof (repainted_fields _ _ (repainted_redrawCanvas_O api s1))
    as (A1 & A2 & A3 & _ & A5 & A6 & _ & _ & _ & _ & _ & A12).
  pose proof (repainted_fields _ _ (repainted_redrawCanvas_O api s2))
    as (B1 & B2 & B3 & _ & B5 & B6 & _ & _ & _ & _ & _ & B12).
  apply draw_tail_canvas; congruence.
Qed.

(** X15.  Previews do not accumulate: during a gesture the buffer after
    a pointer move is the recomposite of the store plus the shape up to
    that pointer position, whatever moves came before.  Holds for every
    tool, in both revisions. *)
Theorem preview_last_move (api : CanvasAPI) (moves : list (Q * Q)) (x y : Q)
    (s : State) :
  isDrawing s = true -> lineDash (ctx s) = [] ->
  canvas (fold_left (fun s m => Refactored.draw api (fst m) (snd m) s)
            (moves ++ [(x, y)]) s)
  = canvas (Refactored.draw api x y s)
  /\ canvas (fold_left (fun s m => Original.draw api (fst m) (snd m) s)
               (moves ++ [(x, y)]) s)
     = canvas (Original.draw api x y s).
Proof.
  intros Hd Hdash. rewrite !fold_left_app. cbn [fold_left fst snd]. split.
  - pose proof (repainted_moves_R api moves s (fun _ => Hdash)) as H.
    pose proof (repainted_sameScene _ _ H) as Hsc.
    apply repainted_fields in H.
    destruct H as (F1 & F2 & _ & F4 & F5 & F6 & _).
    apply draw_canvas_R; congruence.
  - pose proof (repainted_moves_O api moves s (fun _ => Hdash)) as H.
    pose proof (repainted_sameScene _ _ H) as Hsc.
    apply repainted_fields in H.
    destruct H as (F1 & F2 & _ & F4 & F5 & F6 & _).
    apply draw_canvas_O; congruence.
Qed.

Lemma preview_last_move_witness :
  let s := Refactored.startDrawing 1 1 (loadImageToEditor sampleImage initialState) in
  canvas (fold_left (fun s m => Refactored.draw dotAPI (fst m) (snd m) s)
            ([(3%Q, 1%Q); (9%Q, 2%Q)] ++ [(5%Q, 2%Q)]) s)
  = canvas (Refactored.draw dotAPI 5 2 s).
Proof.
  cbv zeta.
  destruct (preview_last_move dotAPI [(3%Q, 1%Q); (9%Q, 2%Q)] 5 2
              (Refactored.startDrawing 1 1 (loadImageToEditor sampleImage initialState)))
    as [H _].
  - reflexivity.
  - reflexivity.
  - exact H.
Defined.

(** ** The two revisions side by side *)

Lemma redrawAnnotation_agree (api : CanvasAPI) (s : State) (a : Annotation) :
  isBlurAnnotation a = false ->
  Original.redrawAnnotation api s a = Refactored.redrawAnnotation api s a.
Proof.
  destruct a as [[] x y x' y' c w img | x y txt c f]; try discriminate; reflexivity.
Qed.

Lemma fold_redrawAnnotation_agree (api : CanvasAPI) (l : list Annotation) :
  forallb (fun a => negb (isBlurAnnotation a)) l = true ->
  forall s, fold_left (Original.redrawAnnotation api) l s
            = fold_left (Refactored.redrawAnnotation api) l s.
Proof.
  induction l as [|a l IH]; intros H s; [reflexivity |].
  cbn [forallb] in H. apply andb_true_iff in H as [Ha Hl].
  apply negb_true_iff in Ha. cbn [fold_left].
  rewrite (redrawAnnotation_agree api s a Ha). apply IH. exact Hl.
Qed.

(** X16.  On a store without blur annotations the two revisions
    composite alike: [redrawCanvas] gives the same state, so does the
    preview [draw], and [undo] and [clearAnnotations] leave the same
    store and the same buffer.  The revisions differ in their treatment
    of blur only (and in notifications and text sanitising). *)
Theorem revisions_agree_without_blur (api : CanvasAPI) (s : State) (x y : Q) :
  forallb (fun a => negb (isBlurAnnotation a)) (annotations s) = true ->
  Original.redrawCanvas api s = Refactored.redrawCanvas api s
  /\ Original.draw api x y s = Refactored.draw api x y s
  /\ annotations (Original.undo api s) = annotations (Refactored.undo api s)
  /\ canvas (Original.undo api s) = canvas (Refactored.undo api s)
  /\ canvas (Original.clearAnnotations api s) = canvas (Refactored.clearAnnotations api s).
Proof.
  intros H.
  assert (Original.redrawCanvas api s = Refactored.redrawCanvas api s) as Hr.
  { rewrite redrawCanvas_unfold_O, redrawCanvas_unfold_R.
    apply fold_redrawAnnotation_agree. exact H. }
  split; [exact Hr |].
  split.
  { unfold Original.draw, Refactored.draw. rewrite Hr. reflexivity. }
  assert (canvas (Original.clearAnnotations api s)
          = canvas (Refactored.clearAnnotations api s)) as Hclear.
  { rewrite canvas_clearAnnotations_O, canvas_clearAnnotations_R.
    rewrite redrawCanvas_unfold_O, redrawCanvas_unfold_R. reflexivity. }
  destruct (annotations s) as [|a0 l0] eqn:Ha.
  { unfold Original.undo, Refactored.undo. rewrite Ha. cbn [length Nat.eqb].
    split; [reflexivity |]. split; [reflexivity | exact Hclear]. }
  assert (annotations s <> []) as Hne by (rewrite Ha; discriminate).
  destruct (undo_step_R api s Hne) as (R1 & R2 & _).
  destruct (undo_step_O api s Hne) as (O1 & O2 & _).
  split; [congruence |].
  split; [| exact Hclear].
  rewrite R2, O2, redrawCanvas_unfold_O, redrawCanvas_unfold_R.
  cbn [annotations baseImage canvas set_annotations].
  rewrite fold_redrawAnnotation_agree; [reflexivity |].
  rewrite Ha.
  destruct (exists_last (l := a0 :: l0)) as (l' & b & E); [discriminate |].
  rewrite E in H |- *. rewrite removelast_last.
  rewrite forallb_app in H. apply andb_true_iff in H as [H _]. exact H.
Qed.

Lemma revisions_agree_without_blur_witness :
  let s := runRefactored dotAPI
             [LoadImage sampleImage; MouseDown 1 1; MouseUp 4 2; SubmitText "a<b"] in
  Original.redrawCanvas dotAPI s = Refactored.redrawCanvas dotAPI s.
Proof.
  cbv zeta.
  destruct (revisions_agree_without_blur dotAPI
              (runRefactored dotAPI
                 [LoadImage sampleImage; MouseDown 1 1; MouseUp 4 2; SubmitText "a<b"])
              0 0) as [H _].
  - vm_compute. reflexivity.
  - exact H.
Defined.

(** ** Reachable states, continued *)

Lemma ctx_applyBlurPermanently (x1 y1 x2 y2 : Q) (s : State) :
  ctx (Original.applyBlurPermanently x1 y1 x2 y2 s) = ctx s.
Proof.
  unfold Original.applyBlurPermanently. cbv zeta.
  destruct (Qltb _ 1 || Qltb _ 1); [reflexivity |].
  destruct (safeRect _ _ _ _ _) as [[[safeX safeY] safeWidth] safeHeight].
  destruct ((safeWidth <? 1)%Z || (safeHeight <? 1)%Z); reflexivity.
Qed.

Lemma lineDash_stepOriginal (api : CanvasAPI) (s : State) (e : Event) :
  lineDash (ctx s) = [] -> lineDash (ctx (stepOriginal api s e)) = [].
Proof.
  intros Hd. destruct e as [img | tool | color | n | x y | x y | x y | x y | value
                            | | | x y | x y | | ]; cbn [stepOriginal].
  - reflexivity.
  - exact Hd.
  - exact Hd.
  - exact Hd.
  - unfold Original.startDrawing. cbv zeta. destruct (currentTool _); exact Hd.
  - pose proof (repainted_draw_O api x y s (fun _ => Hd)) as H.
    apply repainted_fields in H. rewrite <- Hd. tauto.
  - unfold Original.stopDrawing. destruct (negb (isDrawing s)); [exact Hd |]. cbv zeta.
    cbn [ctx updateUndoButton set_undoBtn_disabled set_isDrawing set_annotations].
    destruct (currentTool s); try exact Hd.
    rewrite ctx_applyBlurPermanently. exact Hd.
  - unfold Original.stopDrawing. destruct (negb (isDrawing s)); [exact Hd |]. cbv zeta.
    cbn [ctx updateUndoButton set_undoBtn_disabled set_isDrawing set_annotations].
    destruct (currentTool s); try exact Hd.
    rewrite ctx_applyBlurPermanently. exact Hd.
  - unfold Original.submitTextModal. cbv zeta.
    destruct (negb (nonEmpty (trim value))); [exact Hd |].
    cbn [ctx updateUndoButton set_undoBtn_disabled].
    match goal with |- lineDash (ctx (Original.redrawCanvas api ?s0)) = [] =>
      pose proof (repainted_redrawCanvas_O api s0) as H end.
    apply repainted_fields in H. cbn [ctx set_annotations] in H.
    rewrite <- Hd. tauto.
  - unfold Original.undo. destruct (length (annotations s) =? 0); [exact Hd |].
    cbv zeta. cbn [ctx updateUndoButton set_undoBtn_disabled].
    match goal with |- lineDash (ctx (Original.redrawCanvas api ?s0)) = [] =>
      pose proof (repainted_redrawCanvas_O api s0) as H end.
    apply repainted_fields in H. cbn [ctx set_annotations] in H.
    rewrite <- Hd. tauto.
  - unfold Original.clearAnnotations. cbv zeta.
    cbn [ctx updateUndoButton set_undoBtn_disabled].
    pose proof (repainted_redrawCanvas_O api (set_annotations [] s)) as H.
    apply repainted_fields in H. cbn [ctx set_annotations] in H.
    rewrite <- Hd. tauto.
  - unfold startAreaDrag. destruct (negb (isSelectingArea s)); exact Hd.
  - unfold Original.finishAreaSelection.
    destruct (negb (isDrawing s) || negb (isSelectingArea s)); [exact Hd |]. cbv zeta.
    destruct (Qltb _ 10 || Qltb _ 10); [exact Hd |].
    destruct (capturedScreenImageObj s); [| exact Hd].
    destruct (api_crop api _ _ _ _ _); [reflexivity | exact Hd].
  - exact Hd.
  - unfold Original.imageOnload. destruct (pendingBaseImage s); exact Hd.
Qed.

(** X17.  The dashed line style of the blur preview never leaks: in
    every state that an event sequence reaches from the initial page,
    in both revisions, the dash list of the context is empty, so every
    shape is stroked solid. *)
Theorem dash_never_leaks (api : CanvasAPI) (events : list Event) :
  lineDash (ctx (runRefactored api events)) = []
  /\ lineDash (ctx (runOriginal api events)) = [].
Proof.
  split; [apply lineDash_runRefactored |].
  unfold runOriginal.
  assert (forall s, lineDash (ctx s) = [] ->
            lineDash (ctx (fold_left (stepOriginal api) events s)) = []) as H.
  { induction events as [|e events IH]; intros s Hd; cbn [fold_left]; [exact Hd |].
    apply IH, lineDash_stepOriginal, Hd. }
  apply H. reflexivity.
Qed.

Lemma stopDrawing_frame_R (x y : Q) (s : State) :
  baseImage (Refactored.stopDrawing x y s) = baseImage s
  /\ img_width (canvas (Refactored.stopDrawing x y s)) = img_width (canvas s)
  /\ img_height (canvas (Refactored.stopDrawing x y s)) = img_height (canvas s).
Proof.
  unfold Refactored.stopDrawing.
  destruct (negb (isDrawing s)); [repeat split |]. cbv zeta.
  cbn [baseImage canvas updateUndoButton set_undoBtn_disabled set_tempBlurBackup
       set_isDrawing].
  destruct (currentTool s); try (repeat split; reflexivity).
  destruct (Qltb 1 (Qabs (x - startX s)) && Qltb 1 (Qabs (y - startY s)));
    [| repeat split].
  pose proof (repainted_applyBlurEffect (Qmin (startX s) x) (Qmin (startY s) y)
                (Qabs (x - startX s)) (Qabs (y - startY s))
                (set_annotations
                   (annotations s ++
                    [Drag blur (startX s) (startY s) x y (currentColor s)
                       (strokeWidth s) (tempBlurBackup s)]) s)) as H.
  apply repainted_fields in H. cbn [baseImage canvas set_annotations] in H. tauto.
Qed.

Lemma frame_stepRefactored (api : CanvasAPI) (s : State) (e : Event) :
  replacesBaseImage e = false -> lineDash (ctx s) = [] ->
  baseImage (stepRefactored api s e) = baseImage s
  /\ img_width (canvas (stepRefactored api s e)) = img_width (canvas s)
  /\ img_height (canvas (stepRefactored api s e)) = img_height (canvas s).
Proof.
  intros He Hd. destruct e as [img | tool | color | n | x y | x y | x y | x y | value
                               | | | x y | x y | | ]; cbn [stepRefactored].
  - discriminate He.
  - repeat split.
  - repeat split.
  - repeat split.
  - unfold Refactored.startDrawing. cbv zeta. destruct (currentTool _); repeat split.
  - pose proof (repainted_draw_R api x y s (fun _ => Hd)) as H.
    apply repainted_fields in H. tauto.
  - apply stopDrawing_frame_R.
  - apply stopDrawing_frame_R.
  - unfold Refactored.submitTextModal. cbv zeta.
    destruct (negb (nonEmpty (sanitizeInput (trim value)))); [repeat split |].
    cbn [baseImage canvas updateUndoButton set_undoBtn_disabled].
    match goal with |- baseImage (Refactored.redrawCanvas api ?s0) = _ /\ _ =>
      pose proof (repainted_redrawCanvas_R api s0) as H end.
    apply repainted_fields in H. cbn [baseImage canvas set_annotations] in H. tauto.
  - destruct (annotations s) as [|a l] eqn:Ha.
    + unfold Refactored.undo. rewrite Ha. repeat split.
    + assert (annotations s <> []) as Hne by (rewrite Ha; discriminate).
      destruct (undo_step_R api s Hne) as (_ & _ & _ & B & _ & Cw & Ch & _).
      repeat split; assumption.
  - unfold Refactored.clearAnnotations. cbv zeta.
    cbn [baseImage canvas updateUndoButton set_undoBtn_disabled showNotification
         set_notification].
    pose proof (repainted_redrawCanvas_R api (set_annotations [] s)) as H.
    apply repainted_fields in H. cbn [baseImage canvas set_annotations] in H. tauto.
  - unfold startAreaDrag. destruct (negb (isSelectingArea s)); repeat split.
  - discriminate He.
  - discriminate He.
  - repeat split.
Qed.

Lemma frame_fold_R (api : CanvasAPI) (events : list Event) :
  forallb (fun e => negb (replacesBaseImage e)) events = true ->
  forall s, lineDash (ctx s) = [] ->
    baseImage (fold_left (stepRefactored api) events s) = baseImage s
    /\ img_width (canvas (fold_left (stepRefactored api) events s)) = img_width (canvas s)
    /\ img_height (canvas (fold_left (stepRefactored api) events s))
       = img_height (canvas s).
Proof.
  induction events as [|e events IH]; intros Hev s Hd.
  - cbn [fold_left]. split; [reflexivity |]. split; reflexivity.
  - cbn [forallb] in Hev. apply andb_true_iff in Hev as [He Hev].
    apply negb_true_iff in He. cbn [fold_left].
    destruct (frame_stepRefactored api s e He Hd) as (B & Cw & Ch).
    destruct (IH Hev (stepRefactored api s e) (lineDash_stepRefactored api s e Hd))
      as (B' & Cw' & Ch').
    split; [congruence |]. split; congruence.
Qed.

(** X18.  The refactored revision never touches the base image: apart
    from loading an image, a completed area capture and going back to
    the capture page, no event changes the base image or the size of
    the canvas, blur commits and their undo included. *)
Theorem base_image_fixed (api : CanvasAPI) (before after : list Event) :
  forallb (fun e => negb (replacesBaseImage e)) after = true ->
  let s0 := runRefactored api before in
  let s1 := runRefactored api (before ++ after) in
  baseImage s1 = baseImage s0
  /\ img_width (canvas s1) = img_width (canvas s0)
  /\ img_height (canvas s1) = img_height (canvas s0).
Proof.
  intros Hafter. cbv zeta.
  assert (runRefactored api (before ++ after)
          = fold_left (stepRefactored api) after (runRefactored api before)) as ->
    by (unfold runRefactored; apply fold_left_app).
  apply frame_fold_R; [exact Hafter | apply lineDash_runRefactored].
Qed.

Lemma base_image_fixed_witness :
  baseImage
    (runRefactored dotAPI
       ([LoadImage sampleImage] ++
        [SelectTool blur; MouseDown 0 0; MouseMove 5 1; MouseUp 10 2; Undo; Clear]))
  = Some sampleImage.
Proof.
  destruct (base_image_fixed dotAPI [LoadImage sampleImage]
              [SelectTool blur; MouseDown 0 0; MouseMove 5 1; MouseUp 10 2; Undo; Clear])
    as (H & _).
  - reflexivity.
  - rewrite H. reflexivity.
Defined.

(** ** Blur commits *)

Lemma applyBlurPermanently_any (x1 y1 x2 y2 : Q) (s : State) :
  wf_image (canvas s) ->
  0 < img_width (canvas s) -> 0 < img_height (canvas s) ->
  (1 <= Qabs (x2 - x1))%Q -> (1 <= Qabs (y2 - y1))%Q ->
  let c := canvas (Refactored.applyBlurEffect (Qmin x1 x2) (Qmin y1 y2)
                     (Qabs (x2 - x1)) (Qabs (y2 - y1)) s) in
  Original.applyBlurPermanently x1 y1 x2 y2 s
  = set_pendingBaseImage (Some c) (set_canvas c s).
Proof.
  intros Hwf HW HH Hw Hh c.
  set (r := safeRect (canvas s) (Qmin x1 x2) (Qmin y1 y2)
              (Qabs (x2 - x1)) (Qabs (y2 - y1))).
  destruct (safeRect_nonempty (canvas s) (Qmin x1 x2) (Qmin y1 y2) _ _ HW HH Hw Hh)
    as [N1 N2]. fold r in N1, N2.
  assert (c = blurred s (Z.to_nat (fst (fst (fst r)))) (Z.to_nat (snd (fst (fst r))))
                (Z.to_nat (snd (fst r))) (Z.to_nat (snd r))) as Hc.
  { unfold c. rewrite applyBlurEffect_any by assumption. reflexivity. }
  assert (drawImage c (blankCanvas (img_width c) (img_height c)) = c) as Hcopy.
  { change (blankCanvas (img_width c) (img_height c))
      with (clearRect (blankCanvas (img_width c) (img_height c))).
    apply drawImage_same_size; [| reflexivity | reflexivity].
    rewrite Hc. apply wf_putImageData. exact Hwf. }
  unfold Original.applyBlurPermanently. cbv zeta.
  apply Qltb_ge in Hw, Hh. rewrite Hw, Hh. cbn [orb]. fold r.
  destruct r as [[[safeX safeY] safeWidth] safeHeight] eqn:Er. cbn [fst snd] in *.
  destruct (Z.ltb_spec safeWidth 1); [lia |].
  destruct (Z.ltb_spec safeHeight 1); [lia |]. cbn [orb].
  cbn [canvas set_canvas].
  change (putImageData _ (Z.to_nat safeX) (Z.to_nat safeY) (canvas s))
    with (blurred s (Z.to_nat safeX) (Z.to_nat safeY) (Z.to_nat safeWidth)
            (Z.to_nat safeHeight)).
  rewrite <- Hc, Hcopy. reflexivity.
Qed.

(** X19.  In the original revision a blur commit is burnt into the base
    image: once the copy of the canvas has loaded, the base image is
    the pixelated buffer.  [undo] then removes the blur annotation from
    the store, and on a store that held nothing else the buffer still
    shows the pixelation. *)
Theorem blur_burnt_in (api : CanvasAPI) (s : State) (x y : Q) :
  isDrawing s = true -> currentTool s = blur ->
  wf_image (canvas s) ->
  0 < img_width (canvas s) -> 0 < img_height (canvas s) ->
  (1 <= Qabs (x - startX s))%Q -> (1 <= Qabs (y - startY s))%Q ->
  let s1 := Original.imageOnload (Original.stopDrawing x y s) in
  canvas s1
  = canvas (Refactored.applyBlurEffect (Qmin (startX s) x) (Qmin (startY s) y)
              (Qabs (x - startX s)) (Qabs (y - startY s)) s)
  /\ baseImage s1 = Some (canvas s1)
  /\ annotations s1
     = annotations s ++
       [Drag blur (startX s) (startY s) x y (currentColor s) (strokeWidth s) None]
  /\ annotations (Original.undo api s1) = annotations s
  /\ (annotations s = [] -> canvas (Original.undo api s1) = canvas s1).
Proof.
  intros Hd Ht Hwf HW HH Hw Hh s1.
  set (c := canvas (Refactored.applyBlurEffect (Qmin (startX s) x) (Qmin (startY s) y)
                      (Qabs (x - startX s)) (Qabs (y - startY s)) s)).
  set (a := Drag blur (startX s) (startY s) x y (currentColor s) (strokeWidth s) None).
  assert (Original.stopDrawing x y s
          = updateUndoButton
              (set_isDrawing false
                 (set_annotations (annotations s ++ [a])
                    (set_pendingBaseImage (Some c) (set_canvas c s))))) as Hstop.
  { unfold Original.stopDrawing. rewrite Hd. cbn [negb]. cbv zeta. rewrite Ht.
    rewrite (applyBlurPermanently_any (startX s) (startY s) x y s Hwf HW HH Hw Hh).
    fold c. cbn [currentTool startX startY currentColor strokeWidth annotations
                  set_pendingBaseImage set_canvas].
    rewrite Ht. reflexivity. }
  assert (s1 = set_pendingBaseImage None
                 (set_baseImage (Some c)
                    (updateUndoButton
                       (set_isDrawing false
                          (set_annotations (annotations s ++ [a])
                             (set_pendingBaseImage (Some c) (set_canvas c s)))))))
    as Hs1.
  { unfold s1. rewrite Hstop. reflexivity. }
  assert (wf_image c) as Hwfc.
  { unfold c. rewrite applyBlurEffect_any by assumption. apply wf_putImageData, Hwf. }
  assert (canvas s1 = c) as Hc1 by (rewrite Hs1; reflexivity).
  assert (annotations s1 = annotations s ++ [a]) as Ha1 by (rewrite Hs1; reflexivity).
  split; [exact Hc1 |].
  split; [rewrite Hc1, Hs1; reflexivity |].
  split; [exact Ha1 |].
  destruct (undo_last_O api s1 (annotations s) a Ha1) as [U1 U2].
  split; [exact U1 |].
  intros Hnil. rewrite U2, redrawCanvas_unfold_O.
  cbn [annotations baseImage canvas set_annotations]. rewrite Hnil. cbn [fold_left].
  cbn [canvas set_canvas].
  replace (baseImage s1) with (Some c) by (rewrite Hs1; reflexivity).
  rewrite Hc1. apply drawImage_same_size; [exact Hwfc | reflexivity | reflexivity].
Qed.

Lemma blur_burnt_in_witness :
  let s := Original.startDrawing 0 0
             (selectTool blur (loadImageToEditor sampleImage initialState)) in
  let s1 := Original.imageOnload (Original.stopDrawing 10 2 s) in
  baseImage s1 = Some (canvas s1) /\ canvas (Original.undo dotAPI s1) = canvas s1.
Proof.
  cbv zeta.
  destruct (blur_burnt_in dotAPI
              (Original.startDrawing 0 0
                 (selectTool blur (loadImageToEditor sampleImage initialState)))
              10 2) as (_ & H1 & _ & _ & H2).
  - reflexivity.
  - reflexivity.
  - vm_compute. reflexivity.
  - vm_compute. lia.
  - vm_compute. lia.
  - vm_compute. discriminate.
  - vm_compute. discriminate.
  - split; [exact H1 | apply H2; reflexivity].
Defined.



(** X21.  After a drag with a vector tool that is released where the
    pointer last moved, the buffer of the refactored revision is the
    recomposite of the store: the last preview is the replay of the
    committed annotation. *)
Theorem vector_commit_composited (api : CanvasAPI) (s : State) (x0 y0 x y : Q)
    (moves : list (Q * Q)) :
  currentTool s <> blur -> currentTool s <> text ->
  let s' := dragRefactored api x0 y0 (moves ++ [(x, y)]) x y s in
  canvas s' = canvas (Refactored.redrawCanvas api s').
Proof.
  intros Hb Ht. apply drag_vector_composited_R; assumption.
Qed.

Lemma vector_commit_composited_witness :
  let s' := dragRefactored dotAPI 1 1 ([(3%Q, 1%Q)] ++ [(4%Q, 2%Q)]) 4 2
              (loadImageToEditor sampleImage initialState) in
  canvas s' = canvas (Refactored.redrawCanvas dotAPI s').
Proof.
  apply (vector_commit_composited dotAPI (loadImageToEditor sampleImage initialState)
           1 1 4 2 [(3%Q, 1%Q)]).
  - simpl. discriminate.
  - simpl. discriminate.
Defined.

(** ** Stored text *)

Lemma annotations_stopDrawing_R (x y : Q) (s : State) :
  annotations (Refactored.stopDrawing x y s) = annotations s
  \/ exists tool img,
       annotations (Refactored.stopDrawing x y s)
       = annotations s ++
         [Drag tool (startX s) (startY s) x y (currentColor s) (strokeWidth s) img].
Proof.
  unfold Refactored.stopDrawing.
  destruct (negb (isDrawing s)); [left; reflexivity |]. cbv zeta.
  cbn [annotations updateUndoButton set_undoBtn_disabled set_tempBlurBackup
       set_isDrawing].
  destruct (currentTool s) eqn:Ht;
    try (right; eexists _, None; reflexivity).
  destruct (Qltb 1 (Qabs (x - startX s)) && Qltb 1 (Qabs (y - startY s)));
    [| left; reflexivity].
  right. exists blur, (tempBlurBackup s).
  pose proof (repainted_applyBlurEffect (Qmin (startX s) x) (Qmin (startY s) y)
                (Qabs (x - startX s)) (Qabs (y - startY s))
                (set_annotations
                   (annotations s ++
                    [Drag blur (startX s) (startY s) x y (currentColor s)
                       (strokeWidth s) (tempBlurBackup s)]) s)) as H.
  apply repainted_fields in H. cbn [annotations set_annotations] in H. tauto.
Qed.

Lemma annotations_finishAreaSelection_R (api : CanvasAPI) (x y : Q) (s : State) :
  annotations (Refactored.finishAreaSelection api x y s) = annotations s
  \/ annotations (Refactored.finishAreaSelection api x y s) = [].
Proof.
  unfold Refactored.finishAreaSelection.
  destruct (negb (isDrawing s) || negb (isSelectingArea s)); [left; reflexivity |].
  cbv zeta.
  destruct (Qltb _ 10 || Qltb _ 10); [left; reflexivity |].
  destruct (capturedScreenImageObj s); [| left; reflexivity].
  destruct (api_crop api _ _ _ _ _); [right | left]; reflexivity.
Qed.

Lemma Forall_removelast {A : Type} (P : A -> Prop) (l : list A) :
  Forall P l -> Forall P (removelast l).
Proof.
  intros H. destruct l as [|a l]; [exact H |].
  destruct (exists_last (l := a :: l)) as (l' & b & E); [discriminate |].
  rewrite E in H |- *. rewrite removelast_last.
  apply Forall_app in H. tauto.
Qed.

Lemma escaped_stepRefactored (api : CanvasAPI) (s : State) (e : Event) :
  Forall escapedAnnotation (annotations s) ->
  Forall escapedAnnotation (annotations (stepRefactored api s e)).
Proof.
  intros H. destruct e as [img | tool | color | n | x y | x y | x y | x y | value
                           | | | x y | x y | | ]; cbn [stepRefactored].
  - constructor.
  - exact H.
  - exact H.
  - exact H.
  - unfold Refactored.startDrawing. cbv zeta. destruct (currentTool _); exact H.
  - destruct (redrawn_fields _ _ (redrawn_draw_R api x y s))
      as (_ & _ & _ & _ & _ & _ & Ha & _).
    rewrite Ha. exact H.
  - destruct (annotations_stopDrawing_R x y s) as [E | (tool & img & E)]; rewrite E;
      [exact H |].
    apply Forall_app. split; [exact H |]. constructor; [exact I | constructor].
  - destruct (annotations_stopDrawing_R x y s) as [E | (tool & img & E)]; rewrite E;
      [exact H |].
    apply Forall_app. split; [exact H |]. constructor; [exact I | constructor].
  - destruct (allSpaces value) eqn:Hv.
    + pose proof (nonEmpty_trim value) as Ht. rewrite Hv in Ht. cbn [negb] in Ht.
      pose proof (nonEmpty_sanitizeInput (trim value)) as Hs.
      unfold Refactored.submitTextModal. cbv zeta. rewrite Hs, Ht. exact H.
    + destruct (submitTextModal_store_R api value s Hv) as [E _]. rewrite E.
      apply Forall_app. split; [exact H |].
      constructor; [apply sanitizeInput_no_angle | constructor].
  - destruct (annotations s) as [|a l] eqn:Ha.
    + unfold Refactored.undo. rewrite Ha. cbn [length Nat.eqb]. rewrite Ha. exact H.
    + assert (annotations s <> []) as Hne by (rewrite Ha; discriminate).
      destruct (undo_step_R api s Hne) as (E & _). rewrite E, Ha.
      apply Forall_removelast. exact H.
  - unfold Refactored.clearAnnotations. cbv zeta.
    cbn [annotations updateUndoButton set_undoBtn_disabled showNotification
         set_notification].
    pose proof (repainted_redrawCanvas_R api (set_annotations [] s)) as Hr.
    apply repainted_fields in Hr. cbn [annotations set_annotations] in Hr.
    destruct Hr as (_ & _ & _ & _ & _ & _ & Ha & _). rewrite Ha. constructor.
  - unfold startAreaDrag. destruct (negb (isSelectingArea s)); exact H.
  - destruct (annotations_finishAreaSelection_R api x y s) as [E | E]; rewrite E;
      [exact H | constructor].
  - constructor.
  - exact H.
Qed.

(** X22.  Raw markup never enters the store of the refactored revision:
    in every state that an event sequence reaches from the initial page,
    no text annotation of the store holds an angle bracket. *)
Theorem stored_text_escaped (api : CanvasAPI) (events : list Event) :
  Forall escapedAnnotation (annotations (runRefactored api events)).
Proof.
  unfold runRefactored.
  assert (forall s, Forall escapedAnnotation (annotations s) ->
            Forall escapedAnnotation
              (annotations (fold_left (stepRefactored api) events s))) as H.
  { induction events as [|e events IH]; intros s Hs; cbn [fold_left]; [exact Hs |].
    apply IH, escaped_stepRefactored, Hs. }
  apply H. constructor.
Qed.

